(** * saltyrtc.server.protocol: Path, PathClientTasks and PathClient

    A shallow embedding of [src/saltyrtc/server/protocol.py].

    Python objects are mutable and methods may raise after having mutated
    [self].  Every method is therefore a computation in the monad [Py S],
    which threads the state [S] of the objects it touches and yields
    either a returned value or a raised exception; the state reached at
    the point of a [raise] is kept, as in Python. *)

From Stdlib Require Import ZArith Lia Bool List.
From Stdlib Require Strings.Byte.
From stdpp Require Import base decidable option list gmap.

#[local] Open Scope Z_scope.

(** ** Exceptions and the state-and-exception monad *)

Inductive exn : Set :=
  | KeyError
  | ValueError
  | SlotsFullError
  | MessageError
  | MessageFlowError
  | InternalError
  | AssertionError.

#[global] Instance exn_eq_dec : EqDecision exn.
Proof. solve_decision. Defined.

Inductive outcome (A : Type) : Type :=
  | Return (a : A)
  | Raise (e : exn).
Arguments Return {A} a.
Arguments Raise {A} e.

Definition Py (S A : Type) : Type := S -> S * outcome A.

#[global] Instance Py_ret {S} : MRet (Py S) :=
  fun A a s => (s, Return a).

#[global] Instance Py_bind {S} : MBind (Py S) :=
  fun A B k m s =>
    match m s with
    | (s', Return a) => k a s'
    | (s', Raise e) => (s', Raise e)
    end.

Definition raise {S A} (e : exn) : Py S A := fun s => (s, Raise e).
Definition gets {S A} (f : S -> A) : Py S A := fun s => (s, Return (f s)).
Definition modify {S} (f : S -> S) : Py S unit := fun s => (f s, Return tt).

(** [try: m except e: h] *)
Definition try_except {S A} (m : Py S A) (e : exn) (h : Py S A) : Py S A :=
  fun s =>
    match m s with
    | (s', Raise e') => if decide (e' = e) then h s' else (s', Raise e')
    | r => r
    end.

(** Run a method of one object inside a state made of two objects. *)
Definition on_fst {S T A} (m : Py S A) : Py (S * T) A :=
  fun st => let (s', r) := m (fst st) in ((s', snd st), r).
Definition on_snd {S T A} (m : Py T A) : Py (S * T) A :=
  fun st => let (t', r) := m (snd st) in ((fst st, t'), r).

(** ** [saltyrtc.server.common] *)

Module common.

(** Modelled from the spec: [common.py] is not part of the sources.
    The spec gives the client state as the strictly ordered enumeration
    Restricted, Authenticated, Dropped, whose only permitted transition
    is to the successor; [next] of the last state does not exist. *)
Inductive ClientState : Set := restricted | authenticated | dropped.

#[global] Instance ClientState_eq_dec : EqDecision ClientState.
Proof. solve_decision. Defined.

Definition ClientState_value (s : ClientState) : Z :=
  match s with restricted => 1 | authenticated => 2 | dropped => 3 end.

Definition next (s : ClientState) : option ClientState :=
  match s with
  | restricted => Some authenticated
  | authenticated => Some dropped
  | dropped => None
  end.

(** Modelled from the spec: the address type of a peer, server (0x00),
    initiator (0x01) or responder (0x02..0xff). *)
Inductive AddressType : Set := server | initiator | responder.

#[global] Instance AddressType_eq_dec : EqDecision AddressType.
Proof. solve_decision. Defined.

(** Addresses are one byte. *)
Definition Address := Z.
Definition SERVER_ADDRESS : Address := 0x00.
Definition INITIATOR_ADDRESS : Address := 0x01.

(** Modelled from the spec: the constructor [ResponderAddress(id_)]
    accepts the responder slots 0x02..0xff and raises [ValueError] on
    anything else. *)
Definition ResponderAddress {S} (id_ : Z) : Py S Address :=
  if (0x02 <=? id_) && (id_ <=? 0xff) then mret id_ else raise ValueError.

(** A combined sequence number is a 48-bit integer, or the class
    [OverflowSentinel] once the counter has overflown. *)
Inductive CSN : Set :=
  | SequenceNumber (n : Z)
  | OverflowSentinel.

#[global] Instance CSN_eq_dec : EqDecision CSN.
Proof. solve_decision. Defined.

(** Cookies are byte strings of [COOKIE_LENGTH] bytes. *)
Definition COOKIE_LENGTH : nat := 16.
Definition Cookie := list Byte.byte.

#[global] Instance byte_eq_dec : EqDecision Byte.byte := Byte.byte_eq_dec.

(** Close codes are passed by their value. *)
Definition CloseCode := Z.

End common.
Export common.

(** ** The part of [asyncio] the protocol relies on *)

Module asyncio.

(** A coroutine object: what it will run, and how far it has got.
    [Close code] is the body of [PathClient.close]; every other
    coroutine (a packed message to be sent, a relayed message, ...) is
    opaque. *)
Inductive CoroutineCode : Set :=
  | Close (code : Z)
  | Opaque (tag : nat).

Inductive CoroutineState : Set := CORO_CREATED | CORO_SUSPENDED | CORO_CLOSED.

Record Coroutine : Set := mkCoroutine {
  cr_code : CoroutineCode;
  cr_state : CoroutineState;
}.

(** [coroutine.close()]: the coroutine never resumes its body. *)
Definition Coroutine_close (c : Coroutine) : Coroutine :=
  {| cr_code := cr_code c; cr_state := CORO_CLOSED |}.

(** A task.  [CANCELLING] is a task on which [cancel()] has been
    called and that has not yet been resumed with the cancellation. *)
Inductive TaskState : Set :=
  | PENDING
  | CANCELLING
  | CANCELLED
  | FINISHED (exception : option exn).

Record Task : Set := mkTask {
  task_id : nat;                 (* identity of the object *)
  task_state : TaskState;
  task_done_callbacks : nat;     (* [PathClient.task_done] callbacks added *)
}.

Definition Task_cancelled (t : Task) : bool :=
  match task_state t with CANCELLED => true | _ => false end.

Definition Task_done (t : Task) : bool :=
  match task_state t with CANCELLED | FINISHED _ => true | _ => false end.

Definition Task_exception (t : Task) : option exn :=
  match task_state t with FINISHED e => e | _ => None end.

(** [task.cancel()]: a task that is done stays as it is. *)
Definition Task_cancel (t : Task) : Task :=
  if Task_done t then t
  else {| task_id := task_id t; task_state := CANCELLING;
          task_done_callbacks := task_done_callbacks t |}.

Definition Task_add_done_callback (t : Task) : Task :=
  {| task_id := task_id t; task_state := task_state t;
     task_done_callbacks := S (task_done_callbacks t) |}.

Inductive Awaitable : Set :=
  | ACoroutine (c : Coroutine)
  | ATask (t : Task).

Definition iscoroutine (a : Awaitable) : bool :=
  match a with ACoroutine _ => true | ATask _ => false end.

(** An unbounded [asyncio.Queue]: the items not yet taken, and the
    number of items put and not yet marked as done. *)
Record Queue : Set := mkQueue {
  q_items : list Awaitable;
  q_unfinished_tasks : nat;
}.

Definition Queue_new : Queue := mkQueue [] 0.

Definition Queue_put (a : Awaitable) (q : Queue) : Queue :=
  mkQueue (q_items q ++ [a]) (S (q_unfinished_tasks q)).

Definition Queue_qsize (q : Queue) : nat := length (q_items q).

(** [get_nowait()]: [None] stands for [QueueEmpty]. *)
Definition Queue_get_nowait (q : Queue) : option (Awaitable * Queue) :=
  match q_items q with
  | [] => None
  | a :: rest => Some (a, mkQueue rest (q_unfinished_tasks q))
  end.

(** [task_done()] raises [ValueError] when called too often. *)
Definition Queue_task_done : Py Queue unit :=
  fun q =>
    match q_unfinished_tasks q with
    | O => (q, Raise ValueError)
    | S n => (mkQueue (q_items q) n, Return tt)
    end.

(** What a client has handed to its event loop with [create_task]:
    a call of [enqueue_task] that has not run yet. *)
Inductive Scheduled : Set :=
  | EnqueueTask (awaitable : Awaitable) (ignore_closed : bool).

End asyncio.
Export asyncio.

(** ** [_TaskQueueState] *)

Inductive _TaskQueueState : Set := open | closed | cancelled.

#[global] Instance _TaskQueueState_eq_dec : EqDecision _TaskQueueState.
Proof. solve_decision. Defined.

(** The value of the [IntEnum] member, which the comparisons use. *)
Definition _TaskQueueState_value (s : _TaskQueueState) : Z :=
  match s with open => 1 | closed => 2 | cancelled => 3 end.

(** ** [PathClientTasks] *)

Module PathClientTasks.

Record t : Set := mk {
  _cancelled : bool;
  task_loop : option Task;
  receive_loop : option Task;
  keep_alive_loop : option Task;
}.

Definition __init__ : t := mk false None None None.

Definition tasks (self : t) : list (option Task) :=
  [task_loop self; receive_loop self; keep_alive_loop self].

Definition valid (self : t) : list Task := omap id (tasks self).

(** [task != self.task_loop], on the identity of the task objects. *)
Definition is_not (task : Task) (other : option Task) : bool :=
  match other with
  | Some o => negb (Nat.eqb (task_id task) (task_id o))
  | None => true
  end.

(** One turn of the loop of [cancel_all_but_task_loop]. *)
Definition cancel_if_not (other : option Task) (task : Task) : Task :=
  if is_not task other then Task_cancel task else task.

Definition cancel_all_but_task_loop (force : bool) : Py t unit :=
  fun self =>
    if _cancelled self && negb force then (self, Return tt)
    else
      ({| _cancelled := true;
          task_loop := cancel_if_not (task_loop self) <$> task_loop self;
          receive_loop := cancel_if_not (task_loop self) <$> receive_loop self;
          keep_alive_loop :=
            cancel_if_not (task_loop self) <$> keep_alive_loop self |},
       Return tt).

(** [set] asserts that the tasks have not been set before. *)
Definition set (task_loop' : Task) (receive_loop' keep_alive_loop' : option Task)
  : Py t unit :=
  fun self =>
    match task_loop self with
    | Some _ => (self, Raise AssertionError)
    | None =>
        let self := {| _cancelled := _cancelled self;
                       task_loop := Some task_loop';
                       receive_loop := receive_loop';
                       keep_alive_loop := keep_alive_loop' |} in
        if _cancelled self then cancel_all_but_task_loop true self
        else (self, Return tt)
    end.

End PathClientTasks.

(** ** [PathClient] *)

Module PathClient.

(** The fields of a client that the connection bookkeeping uses.  The
    transport, the keys and boxes, the logger and the keep-alive
    settings play no part in the methods below and are left out.
    [at_] is [id(self)], the identity of the object; [_loop] lists what
    the client has scheduled on its event loop. *)
Record t : Set := mk {
  at_ : nat;
  _loop : list Scheduled;
  _state : ClientState;
  _cookie_out : option Cookie;
  _cookie_in : option Cookie;
  _csn_out : option CSN;
  _csn_in : option CSN;
  _id : Address;
  type : option AddressType;
  tasks : PathClientTasks.t;
  _task_queue : Queue;
  _task_queue_state : _TaskQueueState;
}.

Definition __init__ (at_ : nat) : t :=
  {| at_ := at_; _loop := []; _state := restricted;
     _cookie_out := None; _cookie_in := None;
     _csn_out := None; _csn_in := None;
     _id := SERVER_ADDRESS; type := None;
     tasks := PathClientTasks.__init__;
     _task_queue := Queue_new; _task_queue_state := open |}.

(** Assignments to one field. *)
Definition set__loop (v : list Scheduled) (c : t) : t :=
  mk (at_ c) v (_state c) (_cookie_out c) (_cookie_in c) (_csn_out c)
     (_csn_in c) (_id c) (type c) (tasks c) (_task_queue c)
     (_task_queue_state c).
Definition set__state (v : ClientState) (c : t) : t :=
  mk (at_ c) (_loop c) v (_cookie_out c) (_cookie_in c) (_csn_out c)
     (_csn_in c) (_id c) (type c) (tasks c) (_task_queue c)
     (_task_queue_state c).
Definition set__cookie_out (v : option Cookie) (c : t) : t :=
  mk (at_ c) (_loop c) (_state c) v (_cookie_in c) (_csn_out c)
     (_csn_in c) (_id c) (type c) (tasks c) (_task_queue c)
     (_task_queue_state c).
Definition set__cookie_in (v : option Cookie) (c : t) : t :=
  mk (at_ c) (_loop c) (_state c) (_cookie_out c) v (_csn_out c)
     (_csn_in c) (_id c) (type c) (tasks c) (_task_queue c)
     (_task_queue_state c).
Definition set__csn_out (v : option CSN) (c : t) : t :=
  mk (at_ c) (_loop c) (_state c) (_cookie_out c) (_cookie_in c) v
     (_csn_in c) (_id c) (type c) (tasks c) (_task_queue c)
     (_task_queue_state c).
Definition set__csn_in (v : option CSN) (c : t) : t :=
  mk (at_ c) (_loop c) (_state c) (_cookie_out c) (_cookie_in c)
     (_csn_out c) v (_id c) (type c) (tasks c) (_task_queue c)
     (_task_queue_state c).
Definition set__id (v : Address) (c : t) : t :=
  mk (at_ c) (_loop c) (_state c) (_cookie_out c) (_cookie_in c)
     (_csn_out c) (_csn_in c) v (type c) (tasks c) (_task_queue c)
     (_task_queue_state c).
Definition set_type (v : option AddressType) (c : t) : t :=
  mk (at_ c) (_loop c) (_state c) (_cookie_out c) (_cookie_in c)
     (_csn_out c) (_csn_in c) (_id c) v (tasks c) (_task_queue c)
     (_task_queue_state c).
Definition set_tasks (v : PathClientTasks.t) (c : t) : t :=
  mk (at_ c) (_loop c) (_state c) (_cookie_out c) (_cookie_in c)
     (_csn_out c) (_csn_in c) (_id c) (type c) v (_task_queue c)
     (_task_queue_state c).
Definition set__task_queue (v : Queue) (c : t) : t :=
  mk (at_ c) (_loop c) (_state c) (_cookie_out c) (_cookie_in c)
     (_csn_out c) (_csn_in c) (_id c) (type c) (tasks c) v
     (_task_queue_state c).
Definition set__task_queue_state (v : _TaskQueueState) (c : t) : t :=
  mk (at_ c) (_loop c) (_state c) (_cookie_out c) (_cookie_in c)
     (_csn_out c) (_csn_in c) (_id c) (type c) (tasks c) (_task_queue c) v.

(** Methods of the objects held in a field. *)
Definition on_tasks {A} (m : Py PathClientTasks.t A) : Py t A :=
  fun self => let (ts, r) := m (tasks self) in (set_tasks ts self, r).
Definition on_task_queue {A} (m : Py Queue A) : Py t A :=
  fun self => let (q, r) := m (_task_queue self) in (set__task_queue q self, r).

(** *** Sequence numbers *)

Definition _increment_csn (csn : CSN) : CSN :=
  match csn with
  | OverflowSentinel => OverflowSentinel
  | SequenceNumber csn_value =>
      let csn_value := csn_value + 1 in
      if negb (Z.land csn_value 0xf000000000000 =? 0) then OverflowSentinel
      else SequenceNumber csn_value
  end.

(** *** The state property and its setter *)

Definition state : Py t ClientState := gets _state.

(** [state != self._state.next]: the last state has no successor, and
    the setter raises [ValueError] there as well. *)
Definition state_setter (state : ClientState) : Py t unit :=
  current ← gets _state;
  if decide (Some state ≠ next current) then raise ValueError
  else modify (set__state state).

Definition id : Py t Address := gets _id.

Definition authenticate (id_ : Address) : Py t unit :=
  state_setter authenticated;;
  modify (set__id id_).

Section entropy.

(** [os.urandom]. *)
Variable urandom : nat -> list Byte.byte.

Definition cookie_out : Py t Cookie :=
  fun self =>
    match _cookie_out self with
    | None =>
        let fresh := urandom COOKIE_LENGTH in
        (set__cookie_out (Some fresh) self, Return fresh)
    | Some cookie => (self, Return cookie)
    end.

Definition cookie_in : Py t Cookie :=
  fun self =>
    match _cookie_in self with
    | None => (self, Raise InternalError)
    | Some cookie => (self, Return cookie)
    end.

(** The big-endian unsigned integer of a byte string. *)
Definition unpack_be (bs : list Byte.byte) : Z :=
  fold_left (fun acc b => acc * 256 + Z.of_N (Byte.to_N b)) bs 0.

Definition csn_out : Py t CSN :=
  fun self =>
    match _csn_out self with
    | None =>
        let initial_number :=
          unpack_be (repeat Byte.x00 4 ++ urandom 4) in
        (set__csn_out (Some (SequenceNumber initial_number)) self,
         Return (SequenceNumber initial_number))
    | Some csn => (self, Return csn)
    end.

Definition csn_in : Py t CSN :=
  fun self =>
    match _csn_in self with
    | None => (self, Raise InternalError)
    | Some csn => (self, Return csn)
    end.

Definition increment_csn_out : Py t unit :=
  csn ← csn_out;
  modify (set__csn_out (Some (_increment_csn csn))).

Definition increment_csn_in : Py t unit :=
  csn ← csn_in;
  modify (set__csn_in (Some (_increment_csn csn))).

(** *** Cookie and sequence number of incoming messages *)

Definition valid_cookie (cookie : option Cookie) : Py t bool :=
  recorded ← gets _cookie_in;
  match recorded with
  | None =>
      ours ← cookie_out;
      if decide (cookie = Some ours) then mret false
      else
        modify (set__cookie_in cookie);;
        mret true
  | Some _ =>
      theirs ← cookie_in;
      if decide (cookie ≠ Some theirs) then mret false
      else mret true
  end.

End entropy.

Definition validate_csn_in (csn : Z) : Py t unit :=
  recorded ← gets _csn_in;
  match recorded with
  | None =>
      if negb (Z.land csn 0xffff00000000 =? 0) then raise MessageError
      else modify (set__csn_in (Some (SequenceNumber csn)))
  | Some _ => mret tt
  end;;
  recorded ← gets _csn_in;
  (if decide (recorded = Some OverflowSentinel) then raise MessageFlowError
   else mret tt);;
  recorded ← gets _csn_in;
  if decide (Some (SequenceNumber csn) ≠ recorded) then raise MessageError
  else mret tt.

Definition p2p_allowed (destination_type : AddressType) (self : t) : bool :=
  bool_decide (_state self = authenticated)
  && bool_decide (type self ≠ Some destination_type).

(** *** The task queue

    A method that changes the awaitable it is given returns that
    awaitable as it is after the call. *)

Definition task_done : Py t unit :=
  on_task_queue (try_except Queue_task_done ValueError (raise InternalError)).

Definition _cancel_awaitable (awaitable : Awaitable) (mark_as_done : bool)
  : Py t Awaitable :=
  match awaitable with
  | ACoroutine coroutine =>
      let coroutine := Coroutine_close coroutine in
      (if mark_as_done then task_done else mret tt);;
      mret (ACoroutine coroutine)
  | ATask task =>
      let task := if mark_as_done then Task_add_done_callback task else task in
      if Task_cancelled task then mret (ATask task)
      else if Task_done task then mret (ATask task)
      else mret (ATask (Task_cancel task))
  end.

Definition enqueue_task (awaitable : Awaitable) (ignore_closed : bool)
  : Py t Awaitable :=
  queue_state ← gets _task_queue_state;
  if bool_decide (queue_state = open)
     || (ignore_closed && bool_decide (queue_state = closed))
  then
    on_task_queue (modify (Queue_put awaitable));;
    mret awaitable
  else _cancel_awaitable awaitable false.

(** [await self._task_queue.get()]: on an empty queue the caller stays
    suspended, which is [None] here. *)
Definition dequeue_task : Py t (option Awaitable) :=
  fun self =>
    match Queue_get_nowait (_task_queue self) with
    | None => (self, Return None)
    | Some (awaitable, rest) => (set__task_queue rest self, Return (Some awaitable))
    end.

Definition close_task_queue : Py t unit :=
  queue_state ← gets _task_queue_state;
  if _TaskQueueState_value closed <=? _TaskQueueState_value queue_state
  then mret tt
  else modify (set__task_queue_state closed).

(** The loop of [cancel_task_queue]: [get_nowait] takes the items from
    the head until the queue is empty; [pending] is the content of the
    queue when the loop is entered. *)
Fixpoint cancel_pending (pending : list Awaitable) : Py t (list Awaitable) :=
  match pending with
  | [] => mret []
  | _ :: pending =>
      taken ← gets (fun self => Queue_get_nowait (_task_queue self));
      match taken with
      | None => mret []
      | Some (coroutine_or_task, rest) =>
          modify (set__task_queue rest);;
          done ← _cancel_awaitable coroutine_or_task true;
          others ← cancel_pending pending;
          mret (done :: others)
      end
  end.

Definition cancel_task_queue : Py t (list Awaitable) :=
  queue_state ← gets _task_queue_state;
  if _TaskQueueState_value cancelled <=? _TaskQueueState_value queue_state
  then mret []
  else
    modify (set__task_queue_state cancelled);;
    pending ← gets (fun self => q_items (_task_queue self));
    cancel_pending pending.

(** *** Dropping a client *)

(** [self.close(code=...)], as a coroutine that has not started. *)
Definition close (code : Z) : Awaitable :=
  ACoroutine {| cr_code := Close code; cr_state := CORO_CREATED |}.

(** [self._loop.create_task(self.enqueue_task(...))]: the call is
    scheduled and its position on the loop is the handle. *)
Definition create_task (call : Scheduled) : Py t nat :=
  handle ← gets (fun self => length (_loop self));
  modify (fun self => set__loop (_loop self ++ [call]) self);;
  mret handle.

Definition drop (code : CloseCode) : Py t nat :=
  let close_coroutine := close code in
  enqueue_task ← create_task (EnqueueTask close_coroutine true);
  close_task_queue;;
  on_tasks (PathClientTasks.cancel_all_but_task_loop false);;
  state_setter dropped;;
  mret enqueue_task.

End PathClient.

(** ** [Path] *)

Module Path.

(** The slots of a path hold references to clients: the identity
    [PathClient.at_] of the client object.  Equality of clients is
    identity, as [PathClient] defines no [__eq__]. *)
Record t : Type := mk {
  _initiator : option nat;
  _responders : gmap Z nat;
}.

Definition __init__ : t := {| _initiator := None; _responders := ∅ |}.

Definition set__initiator (v : option nat) (self : t) : t :=
  {| _initiator := v; _responders := _responders self |}.
Definition set__responders (v : gmap Z nat) (self : t) : t :=
  {| _initiator := _initiator self; _responders := v |}.

(** [self._responders[id_]], [self._responders[id_] = client] and
    [del self._responders[id_]]. *)
Definition getitem (id_ : Z) : Py t nat :=
  fun self =>
    match _responders self !! id_ with
    | Some client => (self, Return client)
    | None => (self, Raise KeyError)
    end.
Definition setitem (id_ : Z) (client : nat) : Py t unit :=
  modify (fun self => set__responders (<[id_ := client]> (_responders self)) self).
Definition delitem (id_ : Z) : Py t unit :=
  fun self =>
    match _responders self !! id_ with
    | Some _ => (set__responders (delete id_ (_responders self)) self, Return tt)
    | None => (self, Raise KeyError)
    end.

(** The state of a method that is given a client: the path and that
    client. *)
Definition self_and_client : Type := t * PathClient.t.

Definition the_client : Py self_and_client nat :=
  gets (fun st => PathClient.at_ (snd st)).

Definition empty (self : t) : bool :=
  bool_decide (_initiator self = None)
  && bool_decide (size (_responders self) = 0%nat).

Definition get_initiator : Py t nat :=
  fun self =>
    match _initiator self with
    | None => (self, Raise KeyError)
    | Some client => (self, Return client)
    end.

Definition has_client : Py self_and_client bool :=
  id_ ← on_snd PathClient.id;
  client ← the_client;
  if decide (id_ = INITIATOR_ADDRESS) then
    current ← on_fst (gets _initiator);
    mret (bool_decide (current = Some client))
  else
    checked ← try_except (id_ ← ResponderAddress id_; mret (Some id_))
                         ValueError (mret None);
    match checked with
    | None => mret false
    | Some id_ =>
        try_except (found ← on_fst (getitem id_);
                    mret (bool_decide (found = client)))
                   KeyError (mret false)
    end.

Definition set_initiator : Py self_and_client (option nat) :=
  previous_initiator ← on_fst (gets _initiator);
  client ← the_client;
  on_fst (modify (set__initiator (Some client)));;
  on_snd (PathClient.authenticate INITIATOR_ADDRESS);;
  mret previous_initiator.

Definition get_responder (id_ : Address) : Py t nat := getitem id_.

Definition get_responder_ids (self : t) : gset Z := dom (_responders self).

Definition add_responder : Py self_and_client Address :=
  len ← on_fst (gets (fun self => size (_responders self)));
  let id_ := Z.of_nat len + 0x02 in
  id_ ← try_except (ResponderAddress id_) ValueError (raise SlotsFullError);
  client ← the_client;
  on_fst (setitem id_ client);;
  on_snd (PathClient.authenticate id_);;
  mret id_.

Definition remove_client : Py self_and_client unit :=
  state ← on_snd PathClient.state;
  if decide (state = restricted) then mret tt
  else
    id_ ← on_snd PathClient.id;
    let is_initiator := bool_decide (id_ = INITIATOR_ADDRESS) in
    if is_initiator then
      current ← on_fst get_initiator;
      client ← the_client;
      if decide (current ≠ client) then mret tt
      else on_fst (modify (set__initiator None))
    else
      id_ ← try_except (ResponderAddress id_) ValueError (raise KeyError);
      on_fst (delitem id_).

End Path.

(** ** What the spec says

    The operations as the spec words them, to be compared with the
    methods above. *)

Module Spec.

Import PathClient.

(** An incoming sequence number: the first one must have its leading 16
    bits zero and is recorded; a later one must equal the recorded one;
    nothing is accepted after an overflow. *)
Definition validate_incoming_csn (csn : Z) (self : t) : t * outcome unit :=
  match _csn_in self with
  | None =>
      if decide (Z.shiftr csn 32 = 0)
      then (set__csn_in (Some (SequenceNumber csn)) self, Return tt)
      else (self, Raise MessageError)
  | Some OverflowSentinel => (self, Raise MessageFlowError)
  | Some (SequenceNumber expected) =>
      if decide (csn = expected) then (self, Return tt)
      else (self, Raise MessageError)
  end.

(** The server's own cookie: the one it has chosen, or the one it
    chooses now. *)
Definition server_cookie (urandom : nat -> list Byte.byte) (self : t) : Cookie :=
  default (urandom COOKIE_LENGTH) (_cookie_out self).

(** An incoming cookie: the first one is rejected when it is the server's
    own and recorded otherwise; a later one must equal the recorded one. *)
Definition validate_incoming_cookie (urandom : nat -> list Byte.byte)
    (cookie : Cookie) (self : t) : t * outcome bool :=
  match _cookie_in self with
  | None =>
      let ours := server_cookie urandom self in
      let self := set__cookie_out (Some ours) self in
      if decide (cookie = ours) then (self, Return false)
      else (set__cookie_in (Some cookie) self, Return true)
  | Some recorded => (self, Return (bool_decide (cookie = recorded)))
  end.

(** An item that is refused is cancelled at once: a coroutine is closed,
    a task is cancelled. *)
Definition cancel_now (item : Awaitable) : Awaitable :=
  match item with
  | ACoroutine c => ACoroutine (Coroutine_close c)
  | ATask t => ATask (Task_cancel t)
  end.

(** An item taken from the queue by [cancel_task_queue]: a coroutine is
    closed, a task is given the callback and cancelled. *)
Definition cancel_and_mark (item : Awaitable) : Awaitable :=
  match item with
  | ACoroutine c => ACoroutine (Coroutine_close c)
  | ATask t => ATask (Task_cancel (Task_add_done_callback t))
  end.

Definition coroutines (items : list Awaitable) : nat :=
  length (filter (fun item => iscoroutine item = true) items).

(** Whether the queue takes a new item. *)
Definition admits (queue_state : _TaskQueueState) (ignore_closed : bool) : bool :=
  match queue_state with
  | open => true
  | closed => ignore_closed
  | cancelled => false
  end.

Definition enqueue (item : Awaitable) (ignore_closed : bool) (self : t)
  : t * outcome Awaitable :=
  if admits (_task_queue_state self) ignore_closed
  then
    (set__task_queue
       {| q_items := q_items (_task_queue self) ++ [item];
          q_unfinished_tasks := S (q_unfinished_tasks (_task_queue self)) |}
       self,
     Return item)
  else (self, Return (cancel_now item)).

(** The order of the states of the task queue. *)
Definition advances (before after : t) : Prop :=
  _TaskQueueState_value (_task_queue_state before)
  <= _TaskQueueState_value (_task_queue_state after).

(** The smallest responder slot of 0x02..0xff that no responder holds. *)
Definition smallest_unused_slot (responders : gmap Z nat) : option Z :=
  List.find (fun id_ => bool_decide (responders !! id_ = None)) (seqZ 0x02 254).

(** The responders hold exactly the first [n] slots, as they do while no
    responder has been removed. *)
Definition holds_first (n : nat) (responders : gmap Z nat) : Prop :=
  dom responders = list_to_set (seqZ 0x02 (Z.of_nat n)).

(** Whether a second [remove_client] of the same client finds nothing to
    do: the client was never authenticated, or it is an initiator whose
    slot another client holds. *)
Definition nothing_to_remove (path : Path.t) (client : t) : bool :=
  bool_decide (_state client = restricted)
  || (bool_decide (_id client = INITIATOR_ADDRESS)
      && match Path._initiator path with
         | Some current => bool_decide (current <> at_ client)
         | None => false
         end).

End Spec.

(** ** Clients and paths used as examples *)

Module Examples.

(** A source of entropy that yields zero bytes. *)
Definition zeros (n : nat) : list Byte.byte := repeat Byte.x00 n.

(** A path on which two responders were added and the first one has been
    removed: slot 0x02 is free and slot 0x03 is held. *)
Definition first_responder : PathClient.t := PathClient.__init__ 101.
Definition second_responder : PathClient.t := PathClient.__init__ 102.
Definition third_responder : PathClient.t := PathClient.__init__ 103.

Definition one_added : Path.self_and_client :=
  fst (Path.add_responder (Path.__init__, first_responder)).
Definition two_added : Path.self_and_client :=
  fst (Path.add_responder (fst one_added, second_responder)).
Definition first_removed : Path.self_and_client :=
  fst (Path.remove_client (fst two_added, snd one_added)).
Definition path_with_gap : Path.t := fst first_removed.

(** A path on which an initiator has been set. *)
Definition initiator_set : Path.self_and_client :=
  fst (Path.set_initiator (Path.__init__, PathClient.__init__ 100)).

(** A path whose 254 responder slots are all held. *)
Definition full_path : Path.t :=
  Path.set__responders
    (list_to_map ((fun id_ => (id_, Z.to_nat id_)) <$> seqZ 0x02 254))
    Path.__init__.

(** A client with a coroutine and a task in its task queue. *)
Definition queued : PathClient.t :=
  fst (PathClient.enqueue_task
         (ATask {| task_id := 1; task_state := PENDING;
                   task_done_callbacks := 0 |}) false
         (fst (PathClient.enqueue_task (PathClient.close 1000) false
                 (PathClient.__init__ 9)))).

(** The close code [DroppedByInitiator]. *)
Definition DroppedByInitiator : CloseCode := 3004.

(** A client that has been authenticated and dropped, and whose task
    queue has been cancelled afterwards. *)
Definition torn_down : PathClient.t :=
  fst (PathClient.cancel_task_queue
         (fst (PathClient.drop DroppedByInitiator
                 (fst (PathClient.authenticate 0x02 (PathClient.__init__ 7)))))).

End Examples.

(** ** Invariants of a path *)

Module Inv.

(** Every responder slot in use is one of 0x02..0xff. *)
Definition slots_in_range (path : Path.t) : Prop :=
  forall id_ : Z, is_Some (Path._responders path !! id_) -> 0x02 <= id_ <= 0xff.

(** Every responder slot of 0x02..0xff is in use. *)
Definition slots_full (path : Path.t) : Prop :=
  forall id_ : Z, 0x02 <= id_ <= 0xff -> is_Some (Path._responders path !! id_).

End Inv.

(** ** Runs of calls

    Several calls in a row, as the loops of a connection make them. *)

Module Runs.

Import PathClient.

(** One incoming message: its sequence number is validated, and advanced
    once the message has been handled. *)
Definition receive (csn : Z) : Py t unit :=
  validate_csn_in csn;;
  increment_csn_in.

(** The incoming messages of a connection, in order, up to the first one
    that is refused. *)
Fixpoint receive_all (csns : list Z) : Py t unit :=
  match csns with
  | [] => mret tt
  | csn :: csns => receive csn;; receive_all csns
  end.

End Runs.

(** ** Runs on the task queue *)

Module QueueRuns.

Import PathClient.

(** Several items enqueued one after the other. *)
Fixpoint enqueue_all (items : list Awaitable) : Py t unit :=
  match items with
  | [] => mret tt
  | item :: items => enqueue_task item false;; enqueue_all items
  end.

(** [n] items dequeued one after the other, as the task loop takes
    them; the run ends early on an empty queue, where the task loop
    stays suspended. *)
Fixpoint dequeue_all (n : nat) : Py t (list Awaitable) :=
  match n with
  | O => mret []
  | S n =>
      taken ← dequeue_task;
      match taken with
      | None => mret []
      | Some item => rest ← dequeue_all n; mret (item :: rest)
      end
  end.

(** [task_done] called [n] times. *)
Fixpoint task_done_times (n : nat) : Py t unit :=
  match n with
  | O => mret tt
  | S n => task_done;; task_done_times n
  end.

(** The event loop runs a call that was scheduled with [create_task]. *)
Definition run_scheduled (call : Scheduled) : Py t Awaitable :=
  match call with
  | EnqueueTask awaitable ignore_closed => enqueue_task awaitable ignore_closed
  end.

End QueueRuns.

(** ** More examples *)

Module MoreExamples.

(** A client that no path has authenticated yet. *)
Definition newcomer : PathClient.t := PathClient.__init__ 104.

(** The initiator of [Examples.initiator_set], authenticated. *)
Definition the_initiator : PathClient.t := snd Examples.initiator_set.

(** A client whose last accepted message had the sequence number 41, and
    one whose next message must have the largest sequence number. *)
Definition expecting_41 : PathClient.t :=
  PathClient.set__csn_in (Some (SequenceNumber 41)) (PathClient.__init__ 5).
Definition expecting_the_last : PathClient.t :=
  PathClient.set__csn_in (Some (SequenceNumber 0xFFFFFFFFFFFF))
    (PathClient.__init__ 5).

(** Two items for a task queue. *)
Definition a_message : Awaitable :=
  ACoroutine {| cr_code := Opaque 1; cr_state := CORO_CREATED |}.
Definition a_relay : Awaitable :=
  ATask {| task_id := 2; task_state := PENDING; task_done_callbacks := 0 |}.

(** An authenticated client with a message in its queue. *)
Definition busy : PathClient.t :=
  fst (PathClient.enqueue_task a_message false
         (fst (PathClient.authenticate 0x02 (PathClient.__init__ 6)))).

(** The three loops of a client. *)
Definition a_task_loop : Task :=
  {| task_id := 10; task_state := PENDING; task_done_callbacks := 0 |}.
Definition a_receive_loop : Task :=
  {| task_id := 11; task_state := PENDING; task_done_callbacks := 0 |}.
Definition a_keep_alive_loop : Task :=
  {| task_id := 12; task_state := PENDING; task_done_callbacks := 0 |}.

End MoreExamples.

(** * Properties *)

(** ** Running a method *)

Ltac run :=
  cbv beta delta
    [mbind mret Py_bind Py_ret raise gets modify try_except on_fst on_snd
     PathClient.on_tasks PathClient.on_task_queue] in *;
  cbn beta iota zeta in *.

(** ** Bit masks *)

Section masks.

Lemma land_shiftl_r (a b n : Z) :
  0 <= n -> Z.land a (Z.shiftl b n) = Z.shiftl (Z.land (Z.shiftr a n) b) n.
Proof.
  intros Hn. apply Z.bits_inj'. intros i Hi.
  rewrite Z.land_spec.
  destruct (Z.lt_ge_cases i n) as [Hlt | Hge].
  - rewrite !Z.shiftl_spec_low by assumption. apply andb_false_r.
  - rewrite !Z.shiftl_spec by assumption.
    rewrite Z.land_spec, Z.shiftr_spec by lia.
    f_equal. f_equal. lia.
Qed.

Lemma shiftl_eq_0 (a n : Z) : 0 <= n -> Z.shiftl a n = 0 <-> a = 0.
Proof.
  intros Hn. rewrite Z.shiftl_mul_pow2 by assumption.
  assert (0 < 2 ^ n) by (apply Z.pow_pos_nonneg; lia).
  split; [nia | intros ->; reflexivity].
Qed.

(** The mask of [_increment_csn] selects bits 48 to 51. *)
Lemma csn_overflow_mask (v : Z) :
  0 <= v -> Z.land v 0xf000000000000 = 0 <-> Z.land (v / 2 ^ 48) 15 = 0.
Proof.
  intros Hv. change 0xf000000000000 with (Z.shiftl 15 48).
  rewrite land_shiftl_r, shiftl_eq_0, Z.shiftr_div_pow2 by lia.
  reflexivity.
Qed.

(** The mask of [validate_csn_in] selects bits 32 to 47. *)
Lemma csn_leading_mask (csn : Z) :
  0 <= csn < 2 ^ 48 ->
  Z.land csn 0xffff00000000 = 0 <-> Z.shiftr csn 32 = 0.
Proof.
  intros Hcsn. change 0xffff00000000 with (Z.shiftl (Z.ones 16) 32).
  rewrite land_shiftl_r, shiftl_eq_0 by lia.
  rewrite Z.land_ones by lia.
  rewrite Z.mod_small; [reflexivity |].
  rewrite Z.shiftr_div_pow2 by lia.
  split; [apply Z.div_pos; lia |].
  apply Z.div_lt_upper_bound; lia.
Qed.

End masks.

(** ** Sequence numbers *)

Section sequence_numbers.

Import PathClient.

(** C4: on a 48-bit value [_increment_csn] yields the successor, or
    [OverflowSentinel] at the largest value [0xFFFFFFFFFFFF]; and
    [OverflowSentinel] is mapped to itself. *)
Theorem _increment_csn_48 (csn : Z) :
  0 <= csn <= 0xFFFFFFFFFFFF ->
  _increment_csn (SequenceNumber csn) =
    (if decide (csn = 0xFFFFFFFFFFFF) then OverflowSentinel
     else SequenceNumber (csn + 1))
  /\ _increment_csn OverflowSentinel = OverflowSentinel.
Proof.
  intros Hcsn. split; [| reflexivity].
  unfold _increment_csn.
  destruct (decide (csn = 0xFFFFFFFFFFFF)) as [-> | Hne]; [reflexivity |].
  assert (Z.land (csn + 1) 0xf000000000000 = 0) as ->; [| reflexivity].
  apply csn_overflow_mask; [lia |].
  rewrite Z.div_small by lia. reflexivity.
Qed.

Lemma _increment_csn_48_witness :
  _increment_csn (SequenceNumber 0xFFFFFFFFFFFE) =
    SequenceNumber 0xFFFFFFFFFFFF
  /\ _increment_csn OverflowSentinel = OverflowSentinel.
Proof. apply (_increment_csn_48 0xFFFFFFFFFFFE). lia. Defined.

(** C3: for a 48-bit [csn], [validate_csn_in] on a client with no
    recorded number raises [MessageError] exactly when the leading 16
    bits of [csn] are not zero and otherwise records [csn] and accepts;
    on a recorded [OverflowSentinel] it raises [MessageFlowError]; on a
    recorded number it raises [MessageError] when [csn] differs from it
    and accepts otherwise. *)
Theorem validate_csn_in_48 (self : t) (csn : Z) :
  0 <= csn < 2 ^ 48 ->
  validate_csn_in csn self = Spec.validate_incoming_csn csn self.
Proof.
  intros Hcsn. unfold validate_csn_in, Spec.validate_incoming_csn. run.
  pose proof (csn_leading_mask csn Hcsn) as Hmask.
  destruct (_csn_in self) as [[expected |] |] eqn:Hin; cbv beta iota.
  - rewrite Hin. repeat (case_decide; cbv beta iota); congruence.
  - rewrite Hin. repeat (case_decide; cbv beta iota); congruence.
  - destruct (Z.eqb_spec (Z.land csn 0xffff00000000) 0) as [Hl | Hl];
      cbv beta iota delta [negb].
    + change (_csn_in (set__csn_in (Some (SequenceNumber csn)) self))
        with (Some (SequenceNumber csn)).
      repeat (case_decide; cbv beta iota); try congruence.
      all: tauto.
    + case_decide; [tauto | reflexivity].
Qed.

Lemma validate_csn_in_48_witness :
  validate_csn_in 42 (set__csn_in (Some (SequenceNumber 42)) (__init__ 0)) =
    (set__csn_in (Some (SequenceNumber 42)) (__init__ 0), Return tt)
  /\ snd (validate_csn_in 44
            (set__csn_in (Some (SequenceNumber 43)) (__init__ 0))) =
       Raise MessageError
  /\ snd (validate_csn_in 0x000100000000 (__init__ 0)) = Raise MessageError.
Proof.
  split; [| split].
  - rewrite (validate_csn_in_48 _ 42) by lia. reflexivity.
  - rewrite (validate_csn_in_48 _ 44) by lia. reflexivity.
  - rewrite (validate_csn_in_48 _ 0x000100000000) by lia. reflexivity.
Defined.

End sequence_numbers.

(** ** Cookies *)

Section cookies.

Import PathClient.

Variable urandom : nat -> list Byte.byte.

Lemma set__cookie_out_id (self : t) (cookie : Cookie) :
  _cookie_out self = Some cookie -> set__cookie_out (Some cookie) self = self.
Proof. destruct self; cbv [_cookie_out set__cookie_out]. intros ->. reflexivity. Qed.

(** The property [cookie_out] yields the server's cookie and keeps it. *)
Lemma cookie_out_eq (self : t) :
  cookie_out urandom self =
    (set__cookie_out (Some (Spec.server_cookie urandom self)) self,
     Return (Spec.server_cookie urandom self)).
Proof.
  unfold cookie_out, Spec.server_cookie.
  destruct (_cookie_out self) as [ours |] eqn:Hout;
    cbv [default from_option Datatypes.id]; [| reflexivity].
  rewrite (set__cookie_out_id self ours Hout). reflexivity.
Qed.

(** The first cookie of a client. *)
Lemma valid_cookie_unset (self : t) (cookie : Cookie) :
  _cookie_in self = None ->
  valid_cookie urandom (Some cookie) self =
    let ours := Spec.server_cookie urandom self in
    if decide (cookie = ours)
    then (set__cookie_out (Some ours) self, Return false)
    else (set__cookie_in (Some cookie) (set__cookie_out (Some ours) self),
          Return true).
Proof.
  intros Hin. unfold valid_cookie. run. rewrite Hin. cbv beta iota.
  rewrite cookie_out_eq. cbv beta iota zeta.
  repeat (case_decide; cbv beta iota); simplify_eq;
    solve [reflexivity | congruence].
Qed.

(** C5: with no client cookie recorded, [valid_cookie] returns [False]
    exactly when the presented cookie is the server's own cookie, and
    otherwise records the cookie and returns [True]; with a client cookie
    recorded, it returns [True] exactly when the presented cookie equals
    the recorded one, and changes nothing.  This holds for every byte
    string, so for every 16-byte cookie. *)
Theorem valid_cookie_first_and_later (self : t) (cookie : Cookie) :
  valid_cookie urandom (Some cookie) self =
    Spec.validate_incoming_cookie urandom cookie self.
Proof.
  unfold Spec.validate_incoming_cookie.
  destruct (_cookie_in self) as [recorded |] eqn:Hin.
  - unfold valid_cookie, cookie_in. run. rewrite Hin. cbv beta iota.
    rewrite Hin. cbv beta iota.
    case_decide; cbv beta iota; case_bool_decide; congruence.
  - apply valid_cookie_unset. exact Hin.
Qed.

(** C9: when [valid_cookie] rejects a first cookie because it is the
    server's own, no client cookie is recorded, the server keeps its
    cookie, and on the next call any other cookie is recorded and
    accepted as a first one. *)
Theorem valid_cookie_rejection_records_nothing (self : t) (cookie other : Cookie) :
  _cookie_in self = None ->
  snd (valid_cookie urandom (Some cookie) self) = Return false ->
  other <> cookie ->
  let self' := fst (valid_cookie urandom (Some cookie) self) in
  cookie = Spec.server_cookie urandom self
  /\ self' = set__cookie_out (Some cookie) self
  /\ _cookie_in self' = None
  /\ Spec.server_cookie urandom self' = Spec.server_cookie urandom self
  /\ valid_cookie urandom (Some other) self' =
       (set__cookie_in (Some other) self', Return true).
Proof.
  intros Hin Hrejected Hother self'. subst self'.
  rewrite (valid_cookie_unset self cookie Hin) in *. cbv zeta in *.
  destruct (decide (cookie = Spec.server_cookie urandom self)) as [Hsame | Hdiff];
    [| discriminate Hrejected].
  rewrite <- Hsame. cbv [fst].
  assert (_cookie_in (set__cookie_out (Some cookie) self) = None) as Hstill
    by (destruct self; assumption).
  split; [reflexivity |]. split; [reflexivity |].
  split; [exact Hstill |].
  split; [reflexivity |].
  rewrite (valid_cookie_unset _ other Hstill). cbv zeta.
  replace (Spec.server_cookie urandom (set__cookie_out (Some cookie) self))
    with cookie by reflexivity.
  rewrite decide_False by assumption.
  rewrite set__cookie_out_id by reflexivity. reflexivity.
Qed.

End cookies.

Lemma valid_cookie_rejection_records_nothing_witness :
  PathClient._cookie_in
    (fst (PathClient.valid_cookie Examples.zeros (Some (Examples.zeros 16)) (PathClient.__init__ 0)))
    = None
  /\ snd (PathClient.valid_cookie Examples.zeros (Some (repeat Byte.x01 16))
            (fst (PathClient.valid_cookie Examples.zeros (Some (Examples.zeros 16))
                    (PathClient.__init__ 0))))
     = Return true.
Proof.
  pose proof (valid_cookie_rejection_records_nothing Examples.zeros
                (PathClient.__init__ 0) (Examples.zeros 16) (repeat Byte.x01 16)
                eq_refl eq_refl ltac:(discriminate)) as H.
  cbv zeta in H. destruct H as (_ & _ & Hnone & _ & Hnext).
  split; [exact Hnone | exact (f_equal snd Hnext)].
Defined.

(** ** Relaying *)

Section relay.

Import PathClient.

(** C8: [p2p_allowed] is true exactly when the client is authenticated
    and the destination type differs from the client's own type; it is
    false for a restricted client, for a dropped client, and for a
    destination of the client's own type. *)
Theorem p2p_allowed_iff (self : t) (destination_type : AddressType) :
  (p2p_allowed destination_type self = true <->
     _state self = authenticated /\ type self <> Some destination_type)
  /\ (p2p_allowed destination_type self = false <->
        _state self = restricted \/ _state self = dropped
        \/ type self = Some destination_type).
Proof.
  unfold p2p_allowed.
  destruct (_state self); repeat case_bool_decide;
    cbv [andb]; split; split; intros; try discriminate; try tauto;
    try (intuition congruence).
  all: destruct (decide (type self = Some destination_type)); tauto.
Qed.

End relay.

(** ** The task queue *)

Section task_queue.

Import PathClient.

Lemma _cancel_awaitable_not_done (item : Awaitable) (self : t) :
  _cancel_awaitable item false self = (self, Return (Spec.cancel_now item)).
Proof.
  destruct item as [c | task]; [reflexivity |].
  unfold _cancel_awaitable, Spec.cancel_now, Task_cancel, Task_cancelled, Task_done.
  destruct (task_state task); reflexivity.
Qed.

Lemma enqueue_task_queue_state
    (item : Awaitable) (ignore_closed : bool) (self : t) :
  _task_queue_state (fst (enqueue_task item ignore_closed self)) =
    _task_queue_state self.
Proof.
  unfold enqueue_task. run.
  destruct (_ || _); cbv beta iota; [reflexivity |].
  rewrite _cancel_awaitable_not_done. reflexivity.
Qed.

(** C6: [enqueue_task] appends the item to the queue exactly when the
    queue is open, or closed with [ignore_closed] set; in every other
    case the queue is left as it is and the item is cancelled at once: a
    coroutine is closed, a task is cancelled. *)
Theorem enqueue_task_admits_or_cancels
    (self : t) (item : Awaitable) (ignore_closed : bool) :
  enqueue_task item ignore_closed self = Spec.enqueue item ignore_closed self.
Proof.
  unfold enqueue_task, Spec.enqueue, Spec.admits. run.
  destruct (_task_queue_state self), ignore_closed;
    cbv [bool_decide decide_rel _TaskQueueState_eq_dec orb andb];
    cbv beta iota;
    first [reflexivity | apply _cancel_awaitable_not_done].
Qed.

Lemma _cancel_awaitable_queue_state (item : Awaitable) (mark : bool) (self : t) :
  _task_queue_state (fst (_cancel_awaitable item mark self)) =
    _task_queue_state self
  /\ q_items (_task_queue (fst (_cancel_awaitable item mark self))) =
       q_items (_task_queue self).
Proof.
  destruct item as [c | task], mark; unfold _cancel_awaitable, task_done; run.
  - unfold Queue_task_done.
    destruct (q_unfinished_tasks (_task_queue self)); cbv beta iota;
      [case_decide |]; split; reflexivity.
  - split; reflexivity.
  - unfold Task_cancelled, Task_done, Task_add_done_callback; cbn [task_state].
    destruct (task_state task); split; reflexivity.
  - unfold Task_cancelled, Task_done.
    destruct (task_state task); split; reflexivity.
Qed.

Lemma cancel_pending_queue_state (pending : list Awaitable) (self : t) :
  _task_queue_state (fst (cancel_pending pending self)) =
    _task_queue_state self.
Proof.
  revert self. induction pending as [| item pending IH]; intros self;
    [reflexivity |].
  cbn [cancel_pending]. run.
  destruct (Queue_get_nowait (_task_queue self)) as [[first rest] |];
    cbv beta iota; [| reflexivity].
  pose proof (proj1 (_cancel_awaitable_queue_state first true
                        (set__task_queue rest self))) as Hone.
  destruct (_cancel_awaitable first true (set__task_queue rest self))
    as [self1 [done | e]]; cbv [fst] in Hone; cbv beta iota;
    [| exact Hone].
  specialize (IH self1).
  destruct (cancel_pending pending self1) as [self2 [others | e]];
    cbv [fst] in IH |- *; rewrite IH, Hone; reflexivity.
Qed.

Lemma _cancel_awaitable_marked (item : Awaitable) (self : t) :
  (if iscoroutine item then 0 < q_unfinished_tasks (_task_queue self) else True)%nat ->
  _cancel_awaitable item true self =
    (if iscoroutine item
     then set__task_queue
            {| q_items := q_items (_task_queue self);
               q_unfinished_tasks := pred (q_unfinished_tasks (_task_queue self)) |}
            self
     else self,
     Return (Spec.cancel_and_mark item)).
Proof.
  destruct item as [c | task]; cbn [iscoroutine Spec.cancel_and_mark]; intros Hleft.
  - unfold _cancel_awaitable, task_done, Queue_task_done. run.
    destruct (q_unfinished_tasks (_task_queue self)); [lia | reflexivity].
  - unfold _cancel_awaitable, Task_cancel, Task_cancelled, Task_done,
      Task_add_done_callback. cbn [task_state].
    destruct (task_state task); reflexivity.
Qed.

Lemma cancel_pending_all (pending : list Awaitable) (self : t) :
  q_items (_task_queue self) = pending ->
  (Spec.coroutines pending <= q_unfinished_tasks (_task_queue self))%nat ->
  cancel_pending pending self =
    (set__task_queue
       {| q_items := [];
          q_unfinished_tasks :=
            (q_unfinished_tasks (_task_queue self) - Spec.coroutines pending)%nat |}
       self,
     Return (Spec.cancel_and_mark <$> pending)).
Proof.
  revert self. induction pending as [| item pending IH]; intros self Hitems Hleft.
  - cbn [cancel_pending]. run. unfold Spec.coroutines. cbn [filter length list_filter].
    rewrite Nat.sub_0_r. destruct self as [? ? ? ? ? ? ? ? ? ? [items left] ?].
    cbn in Hitems |- *. subst items. reflexivity.
  - cbn [cancel_pending]. run. unfold Queue_get_nowait. rewrite Hitems.
    cbv beta iota.
    set (self0 := set__task_queue _ self).
    assert (Spec.coroutines (item :: pending) =
              ((if iscoroutine item then 1 else 0) + Spec.coroutines pending)%nat)
      as Hcount.
    { unfold Spec.coroutines. rewrite filter_cons.
      destruct item; cbn [iscoroutine]; case_decide; try congruence; reflexivity. }
    rewrite Hcount in *. clear Hcount.
    assert (q_unfinished_tasks (_task_queue self0) =
              q_unfinished_tasks (_task_queue self)) as Hsame
      by (subst self0; destruct self; reflexivity).
    assert (q_items (_task_queue self0) = pending) as Hrest
      by (subst self0; destruct self; reflexivity).
    rewrite (_cancel_awaitable_marked item self0)
      by (destruct (iscoroutine item); [rewrite Hsame; lia | exact I]).
    cbv beta iota.
    destruct (iscoroutine item).
    + rewrite IH.
      * subst self0. destruct self as [? ? ? ? ? ? ? ? ? ? [items left] ?].
        unfold set__task_queue in *. cbn in *.
        replace (Init.Nat.pred left - Spec.coroutines pending)%nat
          with (left - S (Spec.coroutines pending))%nat by lia.
        reflexivity.
      * destruct self0 as [? ? ? ? ? ? ? ? ? ? [items left] ?]. exact Hrest.
      * destruct self0 as [? ? ? ? ? ? ? ? ? ? [items left] ?]. cbn in *. lia.
    + rewrite IH.
      * subst self0. destruct self as [? ? ? ? ? ? ? ? ? ? [items left] ?].
        reflexivity.
      * exact Hrest.
      * rewrite Hsame. lia.
Qed.

(** X3: [cancel_task_queue] on a queue that is not cancelled, whose count of
    unfinished items covers the Spec.coroutines that are queued: the call
    returns, the queue is cancelled and empty, every item that was
    queued has been cancelled, and each coroutine among them has been
    marked as done. *)
Theorem cancel_task_queue_drains (self : t) :
  _task_queue_state self <> cancelled ->
  (Spec.coroutines (q_items (_task_queue self))
   <= q_unfinished_tasks (_task_queue self))%nat ->
  cancel_task_queue self =
    (set__task_queue
       {| q_items := [];
          q_unfinished_tasks :=
            (q_unfinished_tasks (_task_queue self)
             - Spec.coroutines (q_items (_task_queue self)))%nat |}
       (set__task_queue_state cancelled self),
     Return (Spec.cancel_and_mark <$> q_items (_task_queue self))).
Proof.
  intros Hstate Hleft. unfold cancel_task_queue. run.
  destruct (_task_queue_state self) eqn:Hq; [| | congruence];
    cbv [_TaskQueueState_value Z.leb Z.compare Pos.compare Pos.compare_cont];
    cbv beta iota;
    cbn [_task_queue set__task_queue_state];
    rewrite cancel_pending_all by (destruct self; first [reflexivity | assumption]);
    destruct self; reflexivity.
Qed.

End task_queue.

Section task_queue_order.

Import PathClient.

Lemma close_task_queue_eq (self : t) :
  close_task_queue self =
    (match _task_queue_state self with
     | open => set__task_queue_state closed self
     | closed | cancelled => self
     end, Return tt).
Proof.
  unfold close_task_queue. run.
  destruct (_task_queue_state self); reflexivity.
Qed.

(** C7: the state of the task queue never moves backwards in the order
    open, closed, cancelled under [close_task_queue], [cancel_task_queue],
    [enqueue_task] and [dequeue_task]; [close_task_queue] does nothing on
    a queue that is closed or cancelled, so that a second
    [close_task_queue] in a row does nothing; and [cancel_task_queue]
    does nothing on a cancelled queue. *)
Theorem task_queue_state_only_advances (self : t) :
  Spec.advances self (fst (close_task_queue self))
  /\ Spec.advances self (fst (cancel_task_queue self))
  /\ (forall item ignore_closed,
        Spec.advances self (fst (enqueue_task item ignore_closed self)))
  /\ Spec.advances self (fst (dequeue_task self))
  /\ match _task_queue_state self with
     | open => True
     | closed | cancelled => close_task_queue self = (self, Return tt)
     end
  /\ close_task_queue (fst (close_task_queue self)) =
       (fst (close_task_queue self), Return tt)
  /\ match _task_queue_state self with
     | open | closed => True
     | cancelled => cancel_task_queue self = (self, Return [])
     end.
Proof.
  unfold Spec.advances.
  split; [| split; [| split; [| split; [| split; [| split]]]]].
  - rewrite close_task_queue_eq. cbv [fst].
    destruct (_task_queue_state self) eqn:Hq; try rewrite Hq; cbv; congruence.
  - unfold cancel_task_queue. run.
    destruct (_task_queue_state self) eqn:Hq;
      cbv [_TaskQueueState_value Z.leb Z.compare Pos.compare Pos.compare_cont];
      cbv beta iota;
      try (cbv [fst]; rewrite Hq; cbv; congruence).
    all: match goal with
         | |- context [cancel_pending ?p ?s] =>
             pose proof (cancel_pending_queue_state p s) as Hkeep;
             destruct (cancel_pending p s) as [s' [r | e]]
         end;
      cbv [fst] in *; rewrite Hkeep; cbv; congruence.
  - intros item ignore_closed. rewrite enqueue_task_queue_state. lia.
  - unfold dequeue_task.
    destruct (Queue_get_nowait _) as [[item rest] |]; cbv [fst];
      cbn [_task_queue_state set__task_queue]; lia.
  - rewrite close_task_queue_eq.
    destruct (_task_queue_state self); [exact I | reflexivity | reflexivity].
  - rewrite !close_task_queue_eq. cbv [fst].
    destruct (_task_queue_state self) eqn:Hq;
      [cbn [_task_queue_state set__task_queue_state] | rewrite Hq ..];
      reflexivity.
  - unfold cancel_task_queue. run.
    destruct (_task_queue_state self); [exact I | exact I | reflexivity].
Qed.

(** ** Dropping a client *)

(** What [cancel_all_but_task_loop] does to a receive loop that is not
    the task loop, when no cancellation has been asked for before. *)
Lemma cancel_all_but_task_loop_receive
    (ts : PathClientTasks.t) (receive : Task) :
  PathClientTasks._cancelled ts = false ->
  PathClientTasks.receive_loop ts = Some receive ->
  PathClientTasks.is_not receive (PathClientTasks.task_loop ts) = true ->
  PathClientTasks.receive_loop
    (fst (PathClientTasks.cancel_all_but_task_loop false ts)) =
    Some (Task_cancel receive).
Proof.
  intros Hc Hr Hn. unfold PathClientTasks.cancel_all_but_task_loop.
  rewrite Hc. cbn [andb fst PathClientTasks.receive_loop]. rewrite Hr.
  cbn [fmap option_fmap option_map]. unfold PathClientTasks.cancel_if_not.
  rewrite Hn. reflexivity.
Qed.

Lemma cancel_all_but_task_loop_cancelled (ts : PathClientTasks.t) :
  PathClientTasks._cancelled
    (fst (PathClientTasks.cancel_all_but_task_loop false ts)) = true.
Proof.
  unfold PathClientTasks.cancel_all_but_task_loop.
  destruct (PathClientTasks._cancelled ts) eqn:Hc; cbn [andb negb fst];
    [exact Hc | reflexivity].
Qed.

Lemma cancel_all_but_task_loop_returns (ts : PathClientTasks.t) :
  snd (PathClientTasks.cancel_all_but_task_loop false ts) = Return tt.
Proof.
  unfold PathClientTasks.cancel_all_but_task_loop.
  destruct (_ && _); reflexivity.
Qed.

(** [drop], step by step. *)
Lemma drop_eq (self : t) (code : CloseCode) :
  drop code self =
    let scheduled :=
      set__loop (_loop self ++ [EnqueueTask (close code) true]) self in
    let frozen :=
      match _task_queue_state self with
      | open => set__task_queue_state closed scheduled
      | closed | cancelled => scheduled
      end in
    let spared :=
      set_tasks
        (fst (PathClientTasks.cancel_all_but_task_loop false (tasks self)))
        frozen in
    if decide (_state self = authenticated)
    then (set__state dropped spared, Return (length (_loop self)))
    else (spared, Raise ValueError).
Proof.
  unfold drop, create_task, state_setter. run.
  rewrite close_task_queue_eq. cbv beta iota.
  cbn [_task_queue_state set__loop].
  pose proof (cancel_all_but_task_loop_returns (tasks self)) as Hret.
  destruct (_task_queue_state self);
    cbn [tasks set__task_queue_state set__loop];
    destruct (PathClientTasks.cancel_all_but_task_loop false (tasks self))
      as [ts r]; cbv [snd] in Hret; subst r; cbv beta iota;
    cbn [_state set_tasks set__task_queue_state set__loop fst];
    destruct (_state self); reflexivity.
Qed.

(** C10, amended: [drop] returns only on an authenticated client, which
    it leaves dropped; on a restricted or dropped client it raises
    [ValueError] from the state setter and leaves the state as it was.
    In both cases the closing procedure has been scheduled, the task
    queue has been closed and the loops other than the task loop have
    been cancelled before: after a failing [drop] the queue is closed if
    it was open, and is as it was if it was closed or cancelled. *)
Theorem drop_only_authenticated (self : t) (code : CloseCode) :
  let self' := fst (drop code self) in
  snd (drop code self) =
    (if decide (_state self = authenticated)
     then Return (length (_loop self)) else Raise ValueError)
  /\ _state self' =
       (if decide (_state self = authenticated) then dropped else _state self)
  /\ _task_queue_state self' =
       match _task_queue_state self with
       | open => closed
       | closed => closed
       | cancelled => cancelled
       end
  /\ tasks self' =
       fst (PathClientTasks.cancel_all_but_task_loop false (tasks self))
  /\ PathClientTasks._cancelled (tasks self') = true
  /\ _loop self' = _loop self ++ [EnqueueTask (close code) true].
Proof.
  cbv zeta. rewrite drop_eq.
  pose proof (cancel_all_but_task_loop_cancelled (tasks self)) as Hflag.
  destruct (decide (_state self = authenticated)) as [Hs | Hs];
    cbv [fst snd];
    destruct (_task_queue_state self) eqn:Hq;
    cbn [_state _task_queue_state tasks _loop set__state set_tasks
         set__task_queue_state set__loop];
    rewrite ?Hq; repeat split; assumption.
Qed.

End task_queue_order.

Section drop_examples.

Import PathClient Examples.

Lemma cancel_task_queue_drains_witness :
  q_items (_task_queue (fst (cancel_task_queue queued))) = []
  /\ snd (cancel_task_queue queued) =
       Return (Spec.cancel_and_mark <$> q_items (_task_queue queued)).
Proof.
  pose proof (cancel_task_queue_drains queued
                ltac:(discriminate) ltac:(vm_compute; lia)) as Hdrained.
  split.
  - exact (f_equal (fun r => q_items (_task_queue (fst r))) Hdrained).
  - exact (f_equal snd Hdrained).
Defined.

(** C10, as stated, fails on a client that is dropped and whose queue is
    cancelled: [drop] raises [ValueError] and the queue is still
    cancelled, not closed. *)
Lemma drop_again_leaves_queue_cancelled :
  _state torn_down = dropped
  /\ _task_queue_state torn_down = cancelled
  /\ snd (drop DroppedByInitiator torn_down) = Raise ValueError
  /\ _task_queue_state (fst (drop DroppedByInitiator torn_down)) = cancelled.
Proof. vm_compute. repeat split. Qed.

End drop_examples.

(** ** Paths *)

Section paths.

Import Path.

Lemma ResponderAddress_eq {S : Type} (id_ : Z) (s : S) :
  ResponderAddress id_ s =
    (s, if decide (0x02 <= id_ <= 0xff) then Return id_ else Raise ValueError).
Proof.
  unfold ResponderAddress.
  destruct (Z.leb_spec 0x02 id_), (Z.leb_spec id_ 0xff); cbn [andb];
    case_decide; first [reflexivity | lia].
Qed.

(** [remove_client], case by case. *)
Lemma remove_client_eq (path : t) (client : PathClient.t) :
  remove_client (path, client) =
    if decide (PathClient._state client = restricted) then ((path, client), Return tt)
    else if decide (PathClient._id client = INITIATOR_ADDRESS) then
      match _initiator path with
      | None => ((path, client), Raise KeyError)
      | Some current =>
          if decide (current = PathClient.at_ client)
          then ((set__initiator None path, client), Return tt)
          else ((path, client), Return tt)
      end
    else if decide (0x02 <= PathClient._id client <= 0xff) then
      match _responders path !! (PathClient._id client : Z) with
      | Some _ =>
          ((set__responders (delete (PathClient._id client : Z) (_responders path)) path,
            client), Return tt)
      | None => ((path, client), Raise KeyError)
      end
    else ((path, client), Raise KeyError).
Proof.
  unfold remove_client, PathClient.state, PathClient.id, the_client, get_initiator, delitem.
  run. cbv [fst snd].
  case_decide; [reflexivity |].
  case_bool_decide; case_decide; try contradiction.
  - destruct (_initiator path) as [current |]; cbv beta iota; [| reflexivity].
    repeat case_decide; first [reflexivity | congruence].
  - rewrite ResponderAddress_eq.
    case_decide; cbv beta iota.
    + destruct (_responders path !! (PathClient._id client : Z)); reflexivity.
    + rewrite decide_True by reflexivity. reflexivity.
Qed.

(** C2, amended: a second [remove_client] of the same client leaves the
    path as the first one left it, and neither call changes the client;
    the second call returns when the client is restricted or is an
    initiator whose slot another client holds, and raises [KeyError] in
    every other case, so for a responder and for the initiator that the
    first call has removed. *)
Theorem remove_client_twice (path : t) (client : PathClient.t) :
  let once := remove_client (path, client) in
  let twice := remove_client (fst once) in
  fst twice = fst once
  /\ snd (fst once) = client
  /\ snd twice =
       (if Spec.nothing_to_remove path client then Return tt else Raise KeyError).
Proof.
  cbv zeta. unfold Spec.nothing_to_remove.
  rewrite (remove_client_eq path client).
  destruct (decide (PathClient._state client = restricted)) as [Hr | Hr].
  { cbv [fst]. rewrite remove_client_eq. rewrite !decide_True by assumption.
    rewrite bool_decide_eq_true_2 by assumption. repeat split. }
  rewrite (bool_decide_eq_false_2 _ Hr). cbn [orb].
  destruct (decide (PathClient._id client = INITIATOR_ADDRESS)) as [Hi | Hi].
  - rewrite (bool_decide_eq_true_2 _ Hi). cbn [andb].
    destruct (_initiator path) as [current |] eqn:Hcur.
    + destruct (decide (current = PathClient.at_ client)) as [Hsame | Hother];
        cbv [fst]; rewrite remove_client_eq;
        rewrite decide_False by assumption; rewrite decide_True by assumption.
      * cbn [_initiator set__initiator].
        rewrite bool_decide_eq_false_2 by tauto. repeat split.
      * rewrite Hcur. rewrite decide_False by assumption.
        rewrite bool_decide_eq_true_2 by assumption. repeat split.
    + cbv [fst]. rewrite remove_client_eq.
      rewrite decide_False by assumption; rewrite decide_True by assumption.
      rewrite Hcur. repeat split.
  - rewrite (bool_decide_eq_false_2 _ Hi). cbn [andb].
    destruct (decide (0x02 <= PathClient._id client <= 0xff)) as [Hrange | Hrange].
    + destruct (_responders path !! (PathClient._id client : Z)) eqn:Hlook;
        cbv [fst]; rewrite remove_client_eq;
        rewrite !decide_False by assumption; rewrite decide_True by assumption.
      * cbn [_responders set__responders]. rewrite lookup_delete_eq. repeat split.
      * rewrite Hlook. repeat split.
    + cbv [fst]. rewrite remove_client_eq.
      rewrite !decide_False by assumption. repeat split.
Qed.

Lemma authenticate_eq (id_ : Address) (client : PathClient.t) :
  PathClient.authenticate id_ client =
    if decide (PathClient._state client = restricted)
    then (PathClient.set__id id_ (PathClient.set__state authenticated client),
          Return tt)
    else (client, Raise ValueError).
Proof.
  unfold PathClient.authenticate, PathClient.state_setter. run.
  destruct (PathClient._state client); reflexivity.
Qed.

(** [add_responder], case by case. *)
Lemma add_responder_eq (path : t) (client : PathClient.t) :
  add_responder (path, client) =
    let id_ := Z.of_nat (size (_responders path)) + 0x02 in
    if decide (id_ <= 0xff) then
      let path := set__responders
                    (<[id_ := PathClient.at_ client]> (_responders path)) path in
      if decide (PathClient._state client = restricted)
      then ((path,
             PathClient.set__id id_ (PathClient.set__state authenticated client)),
            Return id_)
      else ((path, client), Raise ValueError)
    else ((path, client), Raise SlotsFullError).
Proof.
  unfold add_responder, the_client, setitem. run. cbv [fst snd].
  rewrite ResponderAddress_eq.
  set (id_ := Z.of_nat (size (_responders path)) + 2).
  destruct (decide (id_ <= 255)) as [Hle | Hgt].
  - rewrite decide_True by lia. cbv beta iota.
    rewrite authenticate_eq. case_decide; reflexivity.
  - rewrite decide_False by lia. cbv beta iota.
    rewrite decide_True by reflexivity. reflexivity.
Qed.

(** The first element of a run of integers that satisfies a test. *)
Lemma find_seqZ_first (test : Z -> bool) (k : nat) (start len : Z) :
  (forall i, start <= i < start + Z.of_nat k -> test i = false) ->
  test (start + Z.of_nat k) = true ->
  Z.of_nat k < len ->
  List.find test (seqZ start len) = Some (start + Z.of_nat k).
Proof.
  revert start len. induction k as [| k IH]; intros start len Hbelow Hat Hlen.
  - rewrite seqZ_cons by lia. cbn [List.find].
    replace (start + Z.of_nat 0) with start in * by lia.
    rewrite Hat. reflexivity.
  - rewrite seqZ_cons by lia. cbn [List.find].
    rewrite Hbelow by lia.
    replace (start + Z.of_nat (S k)) with (Z.succ start + Z.of_nat k) in * by lia.
    apply IH; [intros i Hi; apply Hbelow; lia | assumption | lia].
Qed.

Lemma find_seqZ_none (test : Z -> bool) (start len : Z) :
  (forall i, start <= i < start + len -> test i = false) ->
  List.find test (seqZ start len) = None.
Proof.
  intros Hall.
  destruct (List.find test (seqZ start len)) as [i |] eqn:Hfind; [| reflexivity].
  apply List.find_some in Hfind as [Hin Htest].
  apply list_elem_of_In, elem_of_seqZ in Hin.
  rewrite Hall in Htest by lia. discriminate.
Qed.

Lemma holds_first_size (n : nat) (responders : gmap Z nat) :
  Spec.holds_first n responders -> size responders = n.
Proof.
  unfold Spec.holds_first. intros Hdom.
  rewrite <- (size_dom (D := gset Z)), Hdom.
  rewrite size_list_to_set by apply NoDup_seqZ.
  rewrite length_seqZ. lia.
Qed.

Lemma holds_first_lookup (n : nat) (responders : gmap Z nat) (i : Z) :
  Spec.holds_first n responders ->
  responders !! i = None <-> ~ (0x02 <= i < 0x02 + Z.of_nat n).
Proof.
  unfold Spec.holds_first. intros Hdom.
  rewrite <- not_elem_of_dom, Hdom, elem_of_list_to_set, elem_of_seqZ.
  reflexivity.
Qed.

Lemma holds_first_smallest (n : nat) (responders : gmap Z nat) :
  Spec.holds_first n responders -> (n < 254)%nat ->
  Spec.smallest_unused_slot responders = Some (Z.of_nat n + 0x02).
Proof.
  intros Hfirst Hn. unfold Spec.smallest_unused_slot.
  replace (Z.of_nat n + 2) with (2 + Z.of_nat n) by lia.
  apply find_seqZ_first; [| | lia].
  - intros i Hi. apply bool_decide_eq_false_2.
    rewrite (holds_first_lookup n) by assumption. lia.
  - apply bool_decide_eq_true_2.
    rewrite (holds_first_lookup n) by assumption. lia.
Qed.

(** X1: when no responder has been removed so far, [add_responder] installs
    a restricted client at the smallest unused slot, authenticates it
    with that address and returns the address; the slots then hold one
    more responder, again without a gap. *)
Theorem add_responder_without_gap
    (n : nat) (path : t) (client : PathClient.t) :
  Spec.holds_first n (_responders path) -> (n < 254)%nat ->
  PathClient._state client = restricted ->
  exists id_,
    Spec.smallest_unused_slot (_responders path) = Some id_
    /\ add_responder (path, client) =
         ((set__responders (<[id_ := PathClient.at_ client]> (_responders path)) path,
           PathClient.set__id id_ (PathClient.set__state authenticated client)),
          Return id_)
    /\ Spec.holds_first (S n) (<[id_ := PathClient.at_ client]> (_responders path)).
Proof.
  intros Hfirst Hn Hrestricted. exists (Z.of_nat n + 0x02).
  split; [apply holds_first_smallest; assumption |].
  split.
  - rewrite add_responder_eq. cbv zeta.
    rewrite (holds_first_size n) by assumption.
    rewrite decide_True by lia. rewrite decide_True by assumption. reflexivity.
  - unfold Spec.holds_first in *. rewrite dom_insert_L, Hfirst.
    replace (Z.of_nat (S n)) with (Z.of_nat n + 1) by lia.
    rewrite seqZ_app by lia. rewrite list_to_set_app_L.
    replace (seqZ (2 + Z.of_nat n) 1) with [Z.of_nat n + 2]
      by (rewrite seqZ_cons by lia; f_equal; lia).
    cbn [list_to_set foldr]. rewrite (right_id_L ∅ (∪)). apply (comm_L (∪)).
Qed.

(** X2: when every slot of 0x02..0xff is held, [add_responder] raises
    [SlotsFullError] and changes neither the path nor the client. *)
Theorem add_responder_full (path : t) (client : PathClient.t) :
  (forall id_, 0x02 <= id_ <= 0xff -> is_Some (_responders path !! id_)) ->
  Spec.smallest_unused_slot (_responders path) = None
  /\ add_responder (path, client) = ((path, client), Raise SlotsFullError).
Proof.
  intros Hheld. split.
  - apply find_seqZ_none. intros i Hi. apply bool_decide_eq_false_2.
    destruct (Hheld i) as [x Hx]; [lia | congruence].
  - rewrite add_responder_eq. cbv zeta.
    assert (254 <= size (_responders path))%nat as Hsize.
    { rewrite <- (size_dom (D := gset Z)).
      replace 254%nat with (size (list_to_set (seqZ 0x02 254) : gset Z)).
      - apply subseteq_size. intros i Hi.
        apply elem_of_list_to_set, elem_of_seqZ in Hi.
        apply elem_of_dom, Hheld. lia.
      - rewrite size_list_to_set by apply NoDup_seqZ.
        rewrite length_seqZ. reflexivity. }
    rewrite decide_False by lia. reflexivity.
Qed.

End paths.

Section path_examples.

Import Path Examples.

(** C2, as stated, fails for a responder and for the current initiator:
    the first [remove_client] returns and the second one raises
    [KeyError]. *)
Lemma remove_client_twice_raises :
  snd (remove_client two_added) = Return tt
  /\ snd (remove_client (fst (remove_client two_added))) = Raise KeyError
  /\ snd (remove_client initiator_set) = Return tt
  /\ snd (remove_client (fst (remove_client initiator_set))) = Raise KeyError.
Proof. vm_compute. repeat split. Qed.

(** C1 on a path with a gap: slot 0x02 is free and is the smallest unused
    slot, slot 0x03 is held by the second responder, and [add_responder]
    returns 0x03 and puts the new client in the place of the second
    responder, which keeps the address 0x03; when the second responder is
    removed afterwards, it is the entry of the new client that goes. *)
Lemma add_responder_takes_held_slot :
  _responders path_with_gap !! 0x02 = None
  /\ _responders path_with_gap !! 0x03 = Some (PathClient.at_ second_responder)
  /\ PathClient._id (snd two_added) = 0x03
  /\ Spec.smallest_unused_slot (_responders path_with_gap) = Some 0x02
  /\ snd (add_responder (path_with_gap, third_responder)) = Return 0x03
  /\ _responders (fst (fst (add_responder (path_with_gap, third_responder))))
       !! 0x03 = Some (PathClient.at_ third_responder)
  /\ _responders (fst (fst (add_responder (path_with_gap, third_responder))))
       !! 0x02 = None
  /\ _responders
       (fst (fst (remove_client
                    (fst (fst (add_responder (path_with_gap, third_responder))),
                     snd two_added))))
       !! 0x03 = None.
Proof. vm_compute. repeat split. Qed.

Lemma add_responder_without_gap_witness :
  exists id_,
    Spec.smallest_unused_slot (_responders __init__) = Some id_
    /\ add_responder (__init__, first_responder) =
         ((set__responders
             (<[id_ := PathClient.at_ first_responder]> (_responders __init__))
             __init__,
           PathClient.set__id id_
             (PathClient.set__state authenticated first_responder)),
          Return id_)
    /\ Spec.holds_first 1
         (<[id_ := PathClient.at_ first_responder]> (_responders __init__)).
Proof.
  apply (add_responder_without_gap 0 __init__ first_responder).
  - unfold Spec.holds_first. cbn [_responders __init__]. apply dom_empty_L.
  - lia.
  - reflexivity.
Defined.

Lemma full_path_held (id_ : Z) :
  0x02 <= id_ <= 0xff -> is_Some (_responders full_path !! id_).
Proof.
  intros Hrange.
  assert (forallb (fun i => bool_decide (is_Some (_responders full_path !! i)))
            (seqZ 0x02 254) = true) as Hall by (vm_compute; reflexivity).
  rewrite forallb_forall in Hall.
  specialize (Hall id_). rewrite bool_decide_eq_true in Hall.
  apply Hall, list_elem_of_In, elem_of_seqZ. lia.
Defined.

Lemma add_responder_full_witness :
  Spec.smallest_unused_slot (_responders full_path) = None
  /\ add_responder (full_path, third_responder) =
       ((full_path, third_responder), Raise SlotsFullError).
Proof. apply (add_responder_full full_path third_responder full_path_held). Defined.

End path_examples.

(** ** Looking a client up on its path *)

Section lookup.

Import Path.

(** [has_client], case by case: it never raises and changes nothing. *)
Lemma has_client_eq (path : t) (client : PathClient.t) :
  has_client (path, client) =
    ((path, client),
     Return
       (if decide (PathClient._id client = INITIATOR_ADDRESS)
        then bool_decide (_initiator path = Some (PathClient.at_ client))
        else if decide (0x02 <= PathClient._id client <= 0xff)
             then bool_decide (_responders path !! (PathClient._id client : Z)
                               = Some (PathClient.at_ client))
             else false)).
Proof.
  unfold has_client, PathClient.id, the_client, getitem. run. cbv [fst snd].
  case_decide; [reflexivity |].
  rewrite ResponderAddress_eq.
  case_decide; cbv beta iota; [| rewrite decide_True by reflexivity; reflexivity].
  destruct (_responders path !! (PathClient._id client : Z)) as [found |];
    cbv beta iota.
  - repeat case_bool_decide; simplify_eq; solve [reflexivity | congruence].
  - rewrite decide_True by reflexivity. cbv beta iota.
    rewrite bool_decide_eq_false_2 by discriminate. reflexivity.
Qed.


(** [set_initiator], case by case. *)
Lemma set_initiator_eq (path : t) (client : PathClient.t) :
  set_initiator (path, client) =
    let path' := set__initiator (Some (PathClient.at_ client)) path in
    if decide (PathClient._state client = restricted)
    then ((path',
           PathClient.set__id INITIATOR_ADDRESS
             (PathClient.set__state authenticated client)),
          Return (_initiator path))
    else ((path', client), Raise ValueError).
Proof.
  unfold set_initiator, the_client. run. cbv [fst snd].
  rewrite authenticate_eq. case_decide; reflexivity.
Qed.

(** X4: a restricted client that [set_initiator] is given holds slot 0x01
    afterwards, whoever held it before; the previous holder is returned,
    the responders are untouched, the client is authenticated with the
    address 0x01 and [has_client] finds it. *)
Theorem set_initiator_installs (path : t) (client : PathClient.t) :
  PathClient._state client = restricted ->
  let after := fst (set_initiator (path, client)) in
  snd (set_initiator (path, client)) = Return (_initiator path)
  /\ _initiator (fst after) = Some (PathClient.at_ client)
  /\ _responders (fst after) = _responders path
  /\ PathClient._state (snd after) = authenticated
  /\ PathClient._id (snd after) = INITIATOR_ADDRESS
  /\ snd (has_client after) = Return true.
Proof.
  intros Hrestricted. cbv zeta. rewrite set_initiator_eq. cbv zeta.
  rewrite decide_True by assumption. cbv [fst snd].
  rewrite has_client_eq. cbv [snd].
  destruct client. cbn in *.
  rewrite decide_True by reflexivity.
  rewrite bool_decide_eq_true_2 by reflexivity. repeat split.
Qed.



(** X7: a restricted client that [add_responder] has installed is found by
    [has_client], and [get_responder] yields it at the address that was
    returned. *)
Theorem has_client_after_add_responder (path : t) (client : PathClient.t) :
  PathClient._state client = restricted ->
  (size (_responders path) < 254)%nat ->
  let after := fst (add_responder (path, client)) in
  let id_ := Z.of_nat (size (_responders path)) + 0x02 in
  snd (add_responder (path, client)) = Return id_
  /\ snd (has_client after) = Return true
  /\ snd (get_responder id_ (fst after)) = Return (PathClient.at_ client)
  /\ get_responder_ids (fst after) = {[id_]} ∪ get_responder_ids path.
Proof.
  intros Hrestricted Hsize. cbv zeta. rewrite add_responder_eq. cbv zeta.
  rewrite decide_True by lia. rewrite decide_True by assumption. cbv [fst snd].
  rewrite has_client_eq. cbv [snd].
  unfold get_responder, getitem, get_responder_ids.
  destruct client. cbn [PathClient._id PathClient.at_ PathClient.set__id
                         PathClient.set__state _responders set__responders
                         _initiator] in *.
  rewrite decide_False by (unfold INITIATOR_ADDRESS; lia).
  rewrite decide_True by lia.
  rewrite lookup_insert_eq.
  rewrite bool_decide_eq_true_2 by reflexivity.
  rewrite dom_insert_L. repeat split.
Qed.

(** X8: once [remove_client] has returned for a client that was
    authenticated, [has_client] no longer finds that client. *)
Theorem has_client_false_after_remove (path : t) (client : PathClient.t) :
  PathClient._state client <> restricted ->
  snd (remove_client (path, client)) = Return tt ->
  has_client (fst (remove_client (path, client))) =
    (fst (remove_client (path, client)), Return false).
Proof.
  intros Hstate. rewrite remove_client_eq.
  rewrite decide_False by assumption.
  destruct (decide (PathClient._id client = INITIATOR_ADDRESS)) as [Hi | Hi].
  - destruct (_initiator path) as [current |] eqn:Hcur;
      [| cbv [snd]; discriminate].
    destruct (decide (current = PathClient.at_ client)) as [Hsame | Hother];
      intros _; cbv [fst]; rewrite has_client_eq;
      rewrite decide_True by assumption;
      rewrite bool_decide_eq_false_2;
      first [reflexivity
            | cbn [_initiator set__initiator]; rewrite ?Hcur; congruence].
  - destruct (decide (0x02 <= PathClient._id client <= 0xff)) as [Hr | Hr];
      [| cbv [snd]; discriminate].
    destruct (_responders path !! (PathClient._id client : Z)) eqn:Hlook;
      [| cbv [snd]; discriminate].
    intros _. cbv [fst]. rewrite has_client_eq.
    rewrite decide_False by assumption. rewrite decide_True by assumption.
    rewrite bool_decide_eq_false_2; [reflexivity |].
    cbn [_responders set__responders]. rewrite lookup_delete_eq. discriminate.
Qed.

(** X9: an initiator that has been displaced: once another client has been
    given to [set_initiator], [has_client] does not find the former
    initiator, and [remove_client] of the former initiator returns and
    leaves the path, with its new initiator, as it is. *)
Theorem displaced_initiator_is_left_out
    (path : t) (former newcomer : PathClient.t) :
  PathClient._id former = INITIATOR_ADDRESS ->
  PathClient._state former <> restricted ->
  PathClient.at_ newcomer <> PathClient.at_ former ->
  let after := fst (fst (set_initiator (path, newcomer))) in
  _initiator after = Some (PathClient.at_ newcomer)
  /\ has_client (after, former) = ((after, former), Return false)
  /\ remove_client (after, former) = ((after, former), Return tt).
Proof.
  intros Hid Hstate Hother. cbv zeta.
  rewrite set_initiator_eq. cbv zeta.
  destruct (decide (PathClient._state newcomer = restricted)); cbv [fst].
  all: split; [reflexivity |]; split.
  all: try (rewrite has_client_eq; rewrite decide_True by assumption;
            cbn [_initiator set__initiator];
            rewrite bool_decide_eq_false_2 by congruence; reflexivity).
  all: rewrite remove_client_eq; rewrite decide_False by assumption;
    rewrite decide_True by assumption; cbn [_initiator set__initiator];
    rewrite decide_False by assumption; reflexivity.
Qed.

End lookup.

(** ** The responder slots of a path *)

Section slots_kept.

Import Path.

Lemma slots_in_range_size (path : t) :
  Inv.slots_in_range path -> (size (_responders path) <= 254)%nat.
Proof.
  intros Hrange.
  rewrite <- (size_dom (D := gset Z)).
  replace 254%nat with (size (list_to_set (seqZ 0x02 254) : gset Z))
    by (rewrite size_list_to_set by apply NoDup_seqZ;
        rewrite length_seqZ; reflexivity).
  apply subseteq_size. intros id_ Hin.
  apply elem_of_list_to_set, elem_of_seqZ.
  apply elem_of_dom, Hrange in Hin. lia.
Qed.

Lemma slots_full_size (path : t) :
  Inv.slots_full path -> (254 <= size (_responders path))%nat.
Proof.
  intros Hfull.
  rewrite <- (size_dom (D := gset Z)).
  replace 254%nat with (size (list_to_set (seqZ 0x02 254) : gset Z))
    by (rewrite size_list_to_set by apply NoDup_seqZ;
        rewrite length_seqZ; reflexivity).
  apply subseteq_size. intros id_ Hin.
  apply elem_of_list_to_set, elem_of_seqZ in Hin.
  apply elem_of_dom, Hfull. lia.
Qed.

(** X10: the responder slots in use stay within 0x02..0xff: a path that has
    no slot outside this range has none after [add_responder], after
    [set_initiator] and after [remove_client], whatever their outcome;
    such a path never holds more than 254 responders. *)
Theorem slots_in_range_kept (path : t) (client : PathClient.t) :
  Inv.slots_in_range path ->
  Inv.slots_in_range (fst (fst (add_responder (path, client))))
  /\ Inv.slots_in_range (fst (fst (set_initiator (path, client))))
  /\ Inv.slots_in_range (fst (fst (remove_client (path, client))))
  /\ (size (_responders path) <= 254)%nat.
Proof.
  intros Hrange. split; [| split; [| split]].
  - rewrite add_responder_eq. cbv zeta.
    destruct (decide (_ <= 0xff)) as [Hle | Hgt]; [| exact Hrange].
    assert (Inv.slots_in_range
              (set__responders
                 (<[Z.of_nat (size (_responders path)) + 0x02
                    := PathClient.at_ client]> (_responders path)) path))
      as Hkept.
    { intros id_. cbn [_responders set__responders].
      destruct (decide (id_ = Z.of_nat (size (_responders path)) + 0x02))
        as [-> | Hne].
      - intros _. lia.
      - rewrite lookup_insert_ne by congruence. apply Hrange. }
    case_decide; exact Hkept.
  - rewrite set_initiator_eq. cbv zeta. case_decide; exact Hrange.
  - rewrite remove_client_eq.
    repeat (case_decide || case_match); try exact Hrange.
    intros id_. cbv [fst]. cbn [_responders set__responders].
    destruct (decide (id_ = PathClient._id client)) as [-> | Hne].
    + rewrite lookup_delete_eq. intros [? [=]].
    + rewrite lookup_delete_ne by congruence. apply Hrange.
  - apply slots_in_range_size. exact Hrange.
Qed.

(** X11: on a path whose slots in use are within 0x02..0xff, [add_responder]
    raises [SlotsFullError] exactly when all 254 slots are in use. *)
Theorem add_responder_full_iff (path : t) (client : PathClient.t) :
  Inv.slots_in_range path ->
  snd (add_responder (path, client)) = Raise SlotsFullError
  <-> Inv.slots_full path.
Proof.
  intros Hrange. rewrite add_responder_eq. cbv zeta.
  pose proof (slots_in_range_size path Hrange) as Hmost.
  split.
  - intros Hraised.
    assert (size (_responders path) = 254%nat) as Hsize.
    { destruct (decide (_ <= 0xff)) as [Hle | Hgt]; [| lia].
      exfalso. revert Hraised. case_decide; cbv [snd]; discriminate. }
    assert (dom (_responders path) = list_to_set (seqZ 0x02 254)) as Hdom.
    { apply set_subseteq_size_eq.
      - intros id_ Hin. apply elem_of_list_to_set, elem_of_seqZ.
        apply elem_of_dom, Hrange in Hin. lia.
      - rewrite size_dom, Hsize.
        rewrite size_list_to_set by apply NoDup_seqZ.
        rewrite length_seqZ. reflexivity. }
    intros id_ Hid. apply elem_of_dom. rewrite Hdom.
    apply elem_of_list_to_set, elem_of_seqZ. lia.
  - intros Hfull. pose proof (slots_full_size path Hfull) as Hleast.
    rewrite decide_False by lia. reflexivity.
Qed.

(** X12: [remove_client] touches one slot only: when it returns, the
    initiator slot is as it was unless the client was the initiator in
    it, and every responder slot other than the client's own is as it
    was. *)
Theorem remove_client_leaves_the_others (path : t) (client : PathClient.t) :
  let after := fst (fst (remove_client (path, client))) in
  (PathClient._id client <> INITIATOR_ADDRESS -> _initiator after = _initiator path)
  /\ (_initiator path <> Some (PathClient.at_ client) ->
      _initiator after = _initiator path)
  /\ (forall id_ : Z, id_ <> PathClient._id client ->
        _responders after !! id_ = _responders path !! id_)
  /\ (PathClient._id client = INITIATOR_ADDRESS ->
      _responders after = _responders path).
Proof.
  cbv zeta. rewrite remove_client_eq.
  repeat (case_decide || case_match); cbv [fst];
    cbn [_initiator _responders set__initiator set__responders];
    repeat split; try congruence; try reflexivity.
  - intros id_ Hne. apply lookup_delete_ne. congruence.
Qed.

(** X13: adding a restricted client on a path whose next slot number is free
    and removing it again gives the path back. *)
Theorem add_then_remove_responder (path : t) (client : PathClient.t) :
  PathClient._state client = restricted ->
  (size (_responders path) < 254)%nat ->
  _responders path !! (Z.of_nat (size (_responders path)) + 0x02) = None ->
  let added := fst (add_responder (path, client)) in
  snd (remove_client added) = Return tt
  /\ fst (fst (remove_client added)) = path.
Proof.
  intros Hrestricted Hsize Hfree. cbv zeta.
  rewrite add_responder_eq. cbv zeta.
  rewrite decide_True by lia. rewrite decide_True by assumption. cbv [fst].
  rewrite remove_client_eq.
  destruct client, path as [ini resp].
  cbn [PathClient._id PathClient._state PathClient.at_ PathClient.set__id
       PathClient.set__state _responders _initiator set__responders] in *.
  rewrite decide_False by discriminate.
  rewrite decide_False by (unfold INITIATOR_ADDRESS; lia).
  rewrite decide_True by lia.
  rewrite lookup_insert_eq. cbv [fst snd].
  split; [reflexivity |].
  unfold set__responders. cbn [_responders _initiator].
  rewrite delete_insert_eq, delete_id by assumption. reflexivity.
Qed.

End slots_kept.

(** ** Incoming sequence numbers in a row *)

Section csn_stream.

Import PathClient.

(** [validate_csn_in] on a client that has a number recorded. *)
Lemma validate_csn_in_recorded (self : t) (expected csn : Z) :
  _csn_in self = Some (SequenceNumber expected) ->
  validate_csn_in csn self =
    (self, if decide (csn = expected) then Return tt else Raise MessageError).
Proof.
  intros Hin. unfold validate_csn_in. run. rewrite Hin. cbv beta iota.
  rewrite Hin. repeat (case_decide; cbv beta iota); congruence.
Qed.

Lemma validate_csn_in_overflown (self : t) (csn : Z) :
  _csn_in self = Some OverflowSentinel ->
  validate_csn_in csn self = (self, Raise MessageFlowError).
Proof.
  intros Hin. unfold validate_csn_in. run. rewrite Hin. cbv beta iota.
  rewrite Hin. rewrite decide_True by reflexivity. reflexivity.
Qed.

(** A number that [validate_csn_in] accepts is the recorded one
    afterwards, and nothing else of the client has changed. *)
Lemma validate_csn_in_accepted (self : t) (csn : Z) :
  snd (validate_csn_in csn self) = Return tt ->
  fst (validate_csn_in csn self) = set__csn_in (Some (SequenceNumber csn)) self.
Proof.
  destruct (_csn_in self) as [[expected |] |] eqn:Hin.
  - rewrite (validate_csn_in_recorded self expected csn Hin).
    case_decide; cbv [fst snd]; [intros _ | discriminate].
    subst. destruct self; cbn in Hin; subst; reflexivity.
  - rewrite (validate_csn_in_overflown self csn Hin). cbv [snd]. discriminate.
  - unfold validate_csn_in. run. rewrite Hin. cbv beta iota.
    destruct (Z.land csn 0xffff00000000 =? 0); cbv [negb]; cbv beta iota;
      [| cbv [snd]; discriminate].
    change (_csn_in (set__csn_in (Some (SequenceNumber csn)) self))
      with (Some (SequenceNumber csn)).
    repeat (case_decide; cbv beta iota); cbv [fst snd]; congruence.
Qed.

Lemma increment_csn_in_recorded (self : t) (csn : CSN) :
  _csn_in self = Some csn ->
  increment_csn_in self = (set__csn_in (Some (_increment_csn csn)) self, Return tt).
Proof.
  intros Hin. unfold increment_csn_in, csn_in. run. rewrite Hin. reflexivity.
Qed.

Lemma _increment_csn_below (csn : Z) :
  0 <= csn < 0xFFFFFFFFFFFF ->
  _increment_csn (SequenceNumber csn) = SequenceNumber (csn + 1).
Proof.
  intros Hcsn. unfold _increment_csn.
  assert (Z.land (csn + 1) 0xf000000000000 = 0) as ->; [| reflexivity].
  apply csn_overflow_mask; [lia |].
  rewrite Z.div_small by lia. reflexivity.
Qed.

(** X14: after a message with the sequence number [csn], below the largest
    one, has been accepted and the number has been advanced, the next
    message is accepted exactly when its number is [csn + 1]; any other
    number raises [MessageError] and leaves the client as it is. *)
Theorem next_csn_in_is_the_successor (self : t) (csn next : Z) :
  0 <= csn < 0xFFFFFFFFFFFF ->
  snd (validate_csn_in csn self) = Return tt ->
  let advanced := fst (increment_csn_in (fst (validate_csn_in csn self))) in
  snd (increment_csn_in (fst (validate_csn_in csn self))) = Return tt
  /\ _csn_in advanced = Some (SequenceNumber (csn + 1))
  /\ validate_csn_in next advanced =
       (advanced,
        if decide (next = csn + 1) then Return tt else Raise MessageError).
Proof.
  intros Hcsn Haccepted. cbv zeta.
  rewrite (validate_csn_in_accepted self csn Haccepted).
  rewrite (increment_csn_in_recorded _ (SequenceNumber csn)) by reflexivity.
  rewrite _increment_csn_below by assumption. cbv [fst snd].
  split; [reflexivity |]. split; [reflexivity |].
  apply validate_csn_in_recorded. reflexivity.
Qed.

(** X15: after a message with the largest sequence number has been accepted
    and the number has been advanced, the counter has overflown: every
    further message raises [MessageFlowError], and advancing the
    counter again leaves it overflown. *)
Theorem csn_in_overflow_is_final (self : t) (next : Z) :
  snd (validate_csn_in 0xFFFFFFFFFFFF self) = Return tt ->
  let exhausted :=
    fst (increment_csn_in (fst (validate_csn_in 0xFFFFFFFFFFFF self))) in
  _csn_in exhausted = Some OverflowSentinel
  /\ validate_csn_in next exhausted = (exhausted, Raise MessageFlowError)
  /\ increment_csn_in exhausted = (exhausted, Return tt).
Proof.
  intros Haccepted. cbv zeta.
  rewrite (validate_csn_in_accepted self _ Haccepted).
  rewrite (increment_csn_in_recorded _ (SequenceNumber 0xFFFFFFFFFFFF))
    by reflexivity.
  change (_increment_csn (SequenceNumber 0xFFFFFFFFFFFF)) with OverflowSentinel.
  cbv [fst]. split; [reflexivity |]. split.
  - apply validate_csn_in_overflown. reflexivity.
  - rewrite (increment_csn_in_recorded _ OverflowSentinel) by reflexivity.
    destruct self; reflexivity.
Qed.

(** [increment_csn_in] before any message has been accepted raises
    [InternalError]; so does reading [csn_in]. *)
Lemma increment_csn_in_unset (self : t) :
  _csn_in self = None -> increment_csn_in self = (self, Raise InternalError).
Proof.
  intros Hin. unfold increment_csn_in, csn_in. run. rewrite Hin. reflexivity.
Qed.

Lemma receive_all_recorded (csns : list Z) (self : t) (expected : Z) :
  _csn_in self = Some (SequenceNumber expected) ->
  snd (Runs.receive_all csns self) = Return tt ->
  csns = seqZ expected (Z.of_nat (length csns)).
Proof.
  revert self expected.
  induction csns as [| csn csns IH]; intros self expected Hin; [reflexivity |].
  cbn [Runs.receive_all]. unfold Runs.receive. run.
  rewrite (validate_csn_in_recorded self expected csn Hin).
  destruct (decide (csn = expected)) as [-> | Hne]; [| cbv [snd]; discriminate].
  rewrite (increment_csn_in_recorded self (SequenceNumber expected) Hin).
  intros Hrest.
  rewrite seqZ_cons by (cbn [length]; lia). f_equal.
  replace (Z.pred (Z.of_nat (length (expected :: csns))))
    with (Z.of_nat (length csns)) by (cbn [length]; lia).
  destruct (_increment_csn (SequenceNumber expected)) as [following |] eqn:Hnext.
  - assert (following = Z.succ expected) as ->.
    { unfold _increment_csn in Hnext.
      destruct (negb _); [discriminate |]. injection Hnext. lia. }
    apply (IH (set__csn_in (Some (SequenceNumber (Z.succ expected))) self));
      [reflexivity | exact Hrest].
  - destruct csns as [| csn' csns]; [reflexivity |]. exfalso.
    revert Hrest. cbn [Runs.receive_all]. unfold Runs.receive. run.
    rewrite validate_csn_in_overflown by reflexivity. cbv [snd]. discriminate.
Qed.

(** X16: the messages of a connection that are all accepted, from the first
    one on, carry consecutive sequence numbers, and the first of them has
    its leading 16 bits zero. *)
Theorem accepted_csns_are_consecutive (self : t) (first : Z) (csns : list Z) :
  _csn_in self = None ->
  snd (Runs.receive_all (first :: csns) self) = Return tt ->
  Z.land first 0xffff00000000 = 0
  /\ first :: csns = seqZ first (Z.of_nat (length (first :: csns))).
Proof.
  intros Hin Hall.
  assert (snd (validate_csn_in first self) = Return tt) as Haccepted.
  { revert Hall. cbn [Runs.receive_all]. unfold Runs.receive. run.
    destruct (validate_csn_in first self) as [self1 [[] | e]];
      [reflexivity | cbv [snd]; discriminate]. }
  split.
  - revert Haccepted. unfold validate_csn_in. run. rewrite Hin. cbv beta iota.
    destruct (Z.eqb_spec (Z.land first 0xffff00000000) 0) as [Hz | Hnz];
      [intros _; exact Hz | cbv [snd negb]; discriminate].
  - pose proof (validate_csn_in_accepted self first Haccepted) as Hrecorded.
    apply (receive_all_recorded (first :: csns)
             (set__csn_in (Some (SequenceNumber first)) self)); [reflexivity |].
    revert Hall. cbn [Runs.receive_all]. unfold Runs.receive. run.
    destruct (validate_csn_in first self) as [self1 [[] | e]];
      cbv [fst snd] in Hrecorded, Haccepted; [| discriminate]. subst self1.
    rewrite (increment_csn_in_recorded _ (SequenceNumber first)) by reflexivity.
    rewrite (validate_csn_in_recorded _ first first) by reflexivity.
    rewrite decide_True by reflexivity.
    rewrite (increment_csn_in_recorded _ (SequenceNumber first)) by reflexivity.
    destruct self; exact (fun H => H).
Qed.

End csn_stream.

(** ** Outgoing sequence numbers *)

Section outgoing.

Import PathClient.

Variable urandom : nat -> list Byte.byte.

Lemma unpack_be_bound (bs : list Byte.byte) (acc : Z) :
  0 <= acc ->
  0 <= fold_left (fun acc b => acc * 256 + Z.of_N (Byte.to_N b)) bs acc
    < (acc + 1) * 256 ^ Z.of_nat (length bs).
Proof.
  revert acc. induction bs as [| b bs IH]; intros acc Hacc.
  - cbn [fold_left length]. change (256 ^ Z.of_nat 0) with 1. lia.
  - cbn [fold_left length].
    pose proof (Byte.to_N_bounded b) as Hb.
    assert (0 <= Z.of_N (Byte.to_N b) <= 255) as Hbyte by lia.
    specialize (IH (acc * 256 + Z.of_N (Byte.to_N b)) ltac:(lia)).
    replace (Z.of_nat (S (length bs))) with (Z.succ (Z.of_nat (length bs)))
      by lia.
    rewrite Z.pow_succ_r by lia.
    assert (0 < 256 ^ Z.of_nat (length bs)) as Hpow
      by (apply Z.pow_pos_nonneg; lia).
    split; [lia |]. nia.
Qed.

(** X17: the first outgoing sequence number: [csn_out] on a client that has
    none yet chooses a number below 2^32, so with its leading 16 bits
    zero, records it, and yields the same number on every later read
    until it is incremented. *)
Theorem csn_out_starts_below_2_32 (self : t) :
  _csn_out self = None ->
  length (urandom 4) = 4%nat ->
  exists n : Z,
    0 <= n < 2 ^ 32
    /\ csn_out urandom self =
         (set__csn_out (Some (SequenceNumber n)) self, Return (SequenceNumber n))
    /\ csn_out urandom (fst (csn_out urandom self)) =
         (fst (csn_out urandom self), Return (SequenceNumber n)).
Proof.
  intros Hout Hfour.
  exists (unpack_be (repeat Byte.x00 4 ++ urandom 4)).
  split; [| split].
  - unfold unpack_be. rewrite fold_left_app.
    change (fold_left _ (repeat Byte.x00 4) 0) with 0.
    pose proof (unpack_be_bound (urandom 4) 0 ltac:(lia)) as Hbound.
    rewrite Hfour in Hbound. change (256 ^ Z.of_nat 4) with (2 ^ 32) in Hbound.
    lia.
  - unfold csn_out. rewrite Hout. reflexivity.
  - unfold csn_out at 2 3. rewrite Hout. cbv [fst].
    unfold csn_out. destruct self; reflexivity.
Qed.

End outgoing.

(** ** The task queue in use *)

Section queue_in_use.

Import PathClient QueueRuns.

(** [enqueue_task] on an open queue. *)
Lemma enqueue_task_open (item : Awaitable) (ignore_closed : bool) (self : t) :
  _task_queue_state self = open ->
  enqueue_task item ignore_closed self =
    (set__task_queue (Queue_put item (_task_queue self)) self, Return item).
Proof.
  intros Hopen. unfold enqueue_task. run. rewrite Hopen. reflexivity.
Qed.

Lemma enqueue_all_open (items : list Awaitable) (self : t) :
  _task_queue_state self = open ->
  enqueue_all items self =
    (set__task_queue
       {| q_items := q_items (_task_queue self) ++ items;
          q_unfinished_tasks :=
            (q_unfinished_tasks (_task_queue self) + length items)%nat |}
       self,
     Return tt).
Proof.
  revert self. induction items as [| item items IH]; intros self Hopen.
  - cbn [enqueue_all length]. rewrite app_nil_r, Nat.add_0_r.
    destruct self as [? ? ? ? ? ? ? ? ? ? [items pending] ?]. reflexivity.
  - cbn [enqueue_all]. run. rewrite enqueue_task_open by assumption.
    cbv beta iota. rewrite IH by (destruct self; exact Hopen).
    destruct self as [? ? ? ? ? ? ? ? ? ? [queued pending] ?].
    unfold set__task_queue, Queue_put. cbn.
    rewrite <- app_assoc. cbn [app].
    replace (pending + S (length items))%nat with (S (pending + length items))%nat
      by lia.
    reflexivity.
Qed.

Lemma dequeue_all_items (self : t) :
  dequeue_all (length (q_items (_task_queue self))) self =
    (set__task_queue
       {| q_items := [];
          q_unfinished_tasks := q_unfinished_tasks (_task_queue self) |}
       self,
     Return (q_items (_task_queue self))).
Proof.
  destruct self as [? ? ? ? ? ? ? ? ? ? [items pending] ?].
  cbn [_task_queue q_items q_unfinished_tasks].
  induction items as [| item items IH]; [reflexivity |].
  cbn [dequeue_all length]. unfold dequeue_task at 1. run.
  cbn [_task_queue Queue_get_nowait q_items q_unfinished_tasks set__task_queue].
  cbv beta iota. unfold set__task_queue at 1.
  cbn [at_ _loop _state _cookie_out _cookie_in _csn_out _csn_in _id type tasks
       _task_queue _task_queue_state].
  rewrite IH. reflexivity.
Qed.

(** X18: the task queue is first in, first out: the items that are enqueued
    on an open queue are dequeued in the order of their enqueuing, after
    the items that were queued before, and each of them counts as
    unfinished until it is marked as done. *)
Theorem task_queue_is_fifo (self : t) (items : list Awaitable) :
  _task_queue_state self = open ->
  let filled := fst (enqueue_all items self) in
  snd (enqueue_all items self) = Return tt
  /\ snd (dequeue_all (length (q_items (_task_queue filled))) filled) =
       Return (q_items (_task_queue self) ++ items)
  /\ q_unfinished_tasks (_task_queue filled) =
       (q_unfinished_tasks (_task_queue self) + length items)%nat.
Proof.
  intros Hopen. cbv zeta. rewrite enqueue_all_open by assumption.
  cbv [fst snd]. split; [reflexivity |].
  rewrite dequeue_all_items. destruct self. split; reflexivity.
Qed.

Lemma task_done_eq (self : t) :
  task_done self =
    match q_unfinished_tasks (_task_queue self) with
    | O => (self, Raise InternalError)
    | S pending =>
        (set__task_queue
           {| q_items := q_items (_task_queue self); q_unfinished_tasks := pending |}
           self,
         Return tt)
    end.
Proof.
  unfold task_done, Queue_task_done. run.
  destruct self as [? ? ? ? ? ? ? ? ? ? [items pending] ?].
  cbn [_task_queue q_unfinished_tasks q_items].
  destruct pending; reflexivity.
Qed.

Lemma task_done_times_eq (n : nat) (self : t) :
  (n <= q_unfinished_tasks (_task_queue self))%nat ->
  task_done_times n self =
    (set__task_queue
       {| q_items := q_items (_task_queue self);
          q_unfinished_tasks := (q_unfinished_tasks (_task_queue self) - n)%nat |}
       self,
     Return tt).
Proof.
  revert self. induction n as [| n IH]; intros self Hn.
  - cbn [task_done_times]. rewrite Nat.sub_0_r.
    destruct self as [? ? ? ? ? ? ? ? ? ? [items pending] ?]. reflexivity.
  - cbn [task_done_times]. run. rewrite task_done_eq.
    destruct self as [? ? ? ? ? ? ? ? ? ? [items pending] ?].
    cbn [_task_queue q_unfinished_tasks q_items] in *.
    destruct pending as [| pending]; [lia |]. cbv beta iota.
    rewrite IH by (cbn; lia). reflexivity.
Qed.

(** X19: no more items can be marked as done than were enqueued: on a client
    whose queue holds no unfinished item, after [n] items have been
    enqueued on the open queue, [task_done] returns [n] times and raises
    [InternalError] at the next call, which changes nothing. *)
Theorem task_done_counts_the_enqueued (self : t) (items : list Awaitable) :
  _task_queue_state self = open ->
  q_unfinished_tasks (_task_queue self) = 0%nat ->
  let filled := fst (enqueue_all items self) in
  let finished := fst (task_done_times (length items) filled) in
  snd (task_done_times (length items) filled) = Return tt
  /\ q_unfinished_tasks (_task_queue finished) = 0%nat
  /\ task_done finished = (finished, Raise InternalError).
Proof.
  intros Hopen Hnone. cbv zeta. rewrite enqueue_all_open by assumption.
  cbv [fst]. rewrite task_done_times_eq
    by (destruct self; cbn in *; lia).
  cbv [fst snd]. destruct self as [? ? ? ? ? ? ? ? ? ? [queued pending] ?].
  cbn in Hnone. subst pending.
  cbn [_task_queue q_unfinished_tasks q_items set__task_queue].
  rewrite Nat.add_0_l, Nat.sub_diag.
  split; [reflexivity |]. split; [reflexivity |].
  rewrite task_done_eq. reflexivity.
Qed.

End queue_in_use.

(** ** A drop and the closing procedure it schedules *)

Section drop_in_use.

Import PathClient QueueRuns.

Lemma enqueue_task_refused (item : Awaitable) (self : t) :
  _task_queue_state self <> open ->
  enqueue_task item false self = (self, Return (Spec.cancel_now item)).
Proof.
  intros Hstate. unfold enqueue_task. run.
  rewrite bool_decide_eq_false_2 by assumption. cbn [orb andb].
  apply _cancel_awaitable_not_done.
Qed.

(** X20: after [drop] on an authenticated client whose queue is not
    cancelled, the call that [drop] has scheduled puts the closing
    procedure at the end of the queue, behind everything that was queued
    before; from the [drop] on, before and after that call, an item
    that anyone else enqueues is refused and cancelled. *)
Theorem drop_queues_the_close_last
    (self : t) (code : CloseCode) (item : Awaitable) :
  _state self = authenticated ->
  _task_queue_state self <> cancelled ->
  let dropped := fst (drop code self) in
  let flushed := fst (run_scheduled (EnqueueTask (close code) true) dropped) in
  last (_loop dropped) = Some (EnqueueTask (close code) true)
  /\ q_items (_task_queue flushed) = q_items (_task_queue self) ++ [close code]
  /\ enqueue_task item false dropped = (dropped, Return (Spec.cancel_now item))
  /\ enqueue_task item false flushed = (flushed, Return (Spec.cancel_now item)).
Proof.
  intros Hauth Hstate. cbv zeta. rewrite drop_eq. cbv zeta.
  rewrite decide_True by assumption. cbv [fst].
  unfold run_scheduled.
  destruct self as [? ? ? ? ? ? ? ? ? ? [queued pending] qs].
  cbn in Hauth, Hstate. subst.
  destruct qs; [| | congruence];
    cbn [_task_queue_state _loop _task_queue tasks set__loop set_tasks
         set__state set__task_queue_state q_items];
    (split; [apply last_snoc |]);
    unfold enqueue_task at 1; run;
    cbn [_task_queue_state _task_queue bool_decide decide_rel orb andb
         set__task_queue q_items Queue_put];
    cbv [bool_decide decide_rel _TaskQueueState_eq_dec _TaskQueueState_rec
         _TaskQueueState_rect sumbool_rec sumbool_rect orb andb];
    cbv beta iota; cbv [fst];
    cbn [_task_queue set__task_queue q_items];
    (split; [reflexivity |]);
    split; apply enqueue_task_refused; cbn; discriminate.
Qed.

(** X21: when the task queue is cancelled after a [drop] and before the
    scheduled call has run, that call does not queue the closing
    procedure: it closes the coroutine, which never runs. *)
Theorem drop_then_cancel_closes_the_close (self : t) (code : CloseCode) :
  let dropped := fst (drop code self) in
  let cancelled_ := fst (cancel_task_queue dropped) in
  _task_queue_state cancelled_ = cancelled
  /\ run_scheduled (EnqueueTask (close code) true) cancelled_ =
       (cancelled_,
        Return (ACoroutine {| cr_code := Close code; cr_state := CORO_CLOSED |})).
Proof.
  cbv zeta.
  set (dropped := fst (drop code self)).
  assert (_task_queue_state (fst (cancel_task_queue dropped)) = cancelled)
    as Hcancelled.
  { unfold cancel_task_queue. run.
    destruct (_task_queue_state dropped) eqn:Hq;
      cbv [_TaskQueueState_value Z.leb Z.compare Pos.compare Pos.compare_cont];
      cbv beta iota; try exact Hq.
    all: match goal with
         | |- context [cancel_pending ?p ?s] =>
             pose proof (cancel_pending_queue_state p s) as Hkeep;
             destruct (cancel_pending p s) as [s' [r | e]]
         end; cbv [fst] in *; rewrite Hkeep; reflexivity. }
  split; [exact Hcancelled |].
  unfold run_scheduled, enqueue_task. run. rewrite Hcancelled.
  reflexivity.
Qed.

End drop_in_use.

(** ** The loops of a client *)

Section loops.

Import PathClientTasks.

Lemma Task_cancel_twice (task : Task) :
  Task_cancel (Task_cancel task) = Task_cancel task.
Proof.
  unfold Task_cancel, Task_done. destruct task as [i [| | | e] n]; reflexivity.
Qed.

(** X22: a cancellation that is asked for before the loops are set is kept
    and applied by [set]: the receive loop and the keep-alive loop are
    cancelled as they are set, the task loop is not. *)
Theorem cancel_before_set_is_applied
    (ts : t) (task_loop' : Task) (receive_loop' keep_alive_loop' : option Task) :
  task_loop ts = None ->
  (forall other, receive_loop' = Some other \/ keep_alive_loop' = Some other ->
     task_id other <> task_id task_loop') ->
  set task_loop' receive_loop' keep_alive_loop'
      (fst (cancel_all_but_task_loop false ts)) =
    ({| _cancelled := true;
        task_loop := Some task_loop';
        receive_loop := Task_cancel <$> receive_loop';
        keep_alive_loop := Task_cancel <$> keep_alive_loop' |},
     Return tt).
Proof.
  intros Hnone Hother.
  assert (forall loop : option Task,
            (forall other, loop = Some other ->
               task_id other <> task_id task_loop') ->
            cancel_if_not (Some task_loop') <$> loop = Task_cancel <$> loop)
    as Hcancel.
  { intros [other |] Hne; [| reflexivity]. cbn. f_equal.
    unfold cancel_if_not, is_not.
    destruct (Nat.eqb_spec (task_id other) (task_id task_loop')) as [Heq | _];
      [exfalso; exact (Hne other eq_refl Heq) | reflexivity]. }
  unfold set, cancel_all_but_task_loop.
  destruct ts as [c tl rl kl]. cbn in Hnone. subst tl.
  destruct c; cbn [_cancelled task_loop receive_loop keep_alive_loop andb negb
                   fst fmap option_fmap option_map];
    cbv beta iota zeta;
    cbn [_cancelled task_loop receive_loop keep_alive_loop andb negb
         fmap option_fmap option_map];
    rewrite !Hcancel by (intros other Hsome; apply Hother; auto);
    do 2 f_equal;
    unfold cancel_if_not, is_not; rewrite Nat.eqb_refl; reflexivity.
Qed.

(** X23: [cancel_all_but_task_loop] spares the task loop, leaves the
    cancellation recorded, and a later call that is not forced does
    nothing. *)
Theorem cancel_all_but_task_loop_once (ts : t) (force : bool) :
  let once := fst (cancel_all_but_task_loop force ts) in
  task_loop once = task_loop ts
  /\ _cancelled once = true
  /\ cancel_all_but_task_loop false once = (once, Return tt)
  /\ fst (cancel_all_but_task_loop true (fst (cancel_all_but_task_loop true ts))) =
       fst (cancel_all_but_task_loop true ts).
Proof.
  cbv zeta. unfold cancel_all_but_task_loop.
  assert (forall loop : option Task,
            cancel_if_not loop <$> loop = loop) as Hspared.
  { intros [task |]; [| reflexivity]. cbn. f_equal.
    unfold cancel_if_not, is_not. rewrite Nat.eqb_refl. reflexivity. }
  assert (forall keep loop : option Task,
            cancel_if_not keep <$> (cancel_if_not keep <$> loop) =
            cancel_if_not keep <$> loop) as Hagain.
  { intros keep [task |]; [| reflexivity]. cbn. f_equal.
    unfold cancel_if_not.
    destruct (is_not task keep) eqn:Hnot.
    - assert (is_not (Task_cancel task) keep = true) as ->.
      { revert Hnot. unfold is_not, Task_cancel.
        destruct (Task_done task); [exact (fun H => H) |]. destruct keep; auto. }
      apply Task_cancel_twice.
    - rewrite Hnot. reflexivity. }
  destruct ts as [c tl rl kl].
  cbn [_cancelled task_loop receive_loop keep_alive_loop].
  split; [| split; [| split]].
  - destruct (c && negb force); cbn [fst task_loop]; [reflexivity | apply Hspared].
  - destruct c, force; reflexivity.
  - destruct c, force; reflexivity.
  - destruct c;
      cbn [andb negb fst _cancelled task_loop receive_loop keep_alive_loop];
      rewrite !Hspared, !Hagain; reflexivity.
Qed.

End loops.

(** ** The state of a client *)

Section client_state.

Import PathClient.

(** X24: a client is authenticated once: after [authenticate] has returned,
    any further [authenticate] raises [ValueError] and changes nothing,
    so that the address of a client is never assigned anew; before it,
    the address is the server's. *)
Theorem authenticate_only_once (self : t) (id_ other : Address) :
  snd (authenticate id_ self) = Return tt ->
  let authenticated_ := fst (authenticate id_ self) in
  _state self = restricted
  /\ _state authenticated_ = authenticated
  /\ _id authenticated_ = id_
  /\ authenticate other authenticated_ = (authenticated_, Raise ValueError).
Proof.
  cbv zeta. rewrite authenticate_eq.
  destruct (decide (_state self = restricted)) as [Hr | Hr];
    [intros _ | cbv [snd]; discriminate].
  cbv [fst]. rewrite authenticate_eq.
  destruct self; cbn in *. repeat split; assumption.
Qed.

End client_state.

(** ** An empty path *)

Section emptiness.

Import Path.

(** X25: a new path is empty, and a path is not empty once a client has been
    put in a slot: after [set_initiator], whatever its outcome, and
    after [add_responder] unless it raised [SlotsFullError]. *)
Theorem path_with_a_client_is_not_empty (path : t) (client : PathClient.t) :
  empty __init__ = true
  /\ empty (fst (fst (set_initiator (path, client)))) = false
  /\ (snd (add_responder (path, client)) = Raise SlotsFullError
      \/ empty (fst (fst (add_responder (path, client)))) = false).
Proof.
  split; [reflexivity |]. split.
  - rewrite set_initiator_eq. cbv zeta. case_decide; reflexivity.
  - rewrite add_responder_eq. cbv zeta.
    destruct (decide (_ <= 0xff)) as [Hle | Hgt]; [right | left; reflexivity].
    assert (forall ini (m : gmap Z nat) (k : Z) (v : nat),
              empty {| _initiator := ini; _responders := <[k := v]> m |} = false)
      as Hfilled.
    { intros ini m k v. unfold empty. cbn [_initiator _responders].
      rewrite (bool_decide_eq_false_2 (size (<[k:=v]> m) = 0%nat));
        [apply andb_false_r |].
      rewrite map_size_empty_iff. apply insert_non_empty. }
    case_decide; apply Hfilled.
Qed.

End emptiness.

(** ** The properties above on examples *)

Section more_examples.

Import Examples MoreExamples.

Lemma set_initiator_installs_witness :
  snd (Path.set_initiator (fst initiator_set, newcomer)) =
    Return (Some (PathClient.at_ the_initiator))
  /\ snd (Path.has_client (fst (Path.set_initiator (fst initiator_set, newcomer))))
     = Return true.
Proof.
  destruct (set_initiator_installs (fst initiator_set) newcomer eq_refl)
    as (Hprevious & _ & _ & _ & _ & Hfound).
  split; [exact Hprevious | exact Hfound].
Defined.



Lemma has_client_after_add_responder_witness :
  snd (Path.has_client (fst (Path.add_responder (fst two_added, newcomer)))) =
    Return true.
Proof.
  destruct (has_client_after_add_responder (fst two_added) newcomer eq_refl
              ltac:(vm_compute; lia)) as (_ & Hfound & _).
  exact Hfound.
Defined.

Lemma has_client_false_after_remove_witness :
  snd (Path.has_client (fst (Path.remove_client two_added))) = Return false.
Proof.
  exact (f_equal snd
           (has_client_false_after_remove (fst two_added) (snd two_added)
              ltac:(discriminate) eq_refl)).
Defined.

Lemma displaced_initiator_is_left_out_witness :
  snd (Path.has_client
         (fst (fst (Path.set_initiator (fst initiator_set, newcomer))),
          the_initiator)) = Return false.
Proof.
  destruct (displaced_initiator_is_left_out (fst initiator_set) the_initiator
              newcomer eq_refl ltac:(discriminate) ltac:(discriminate))
    as (_ & Hfound & _).
  exact (f_equal snd Hfound).
Defined.

Lemma new_path_in_range : Inv.slots_in_range Path.__init__.
Proof. intros id_ [client Hclient]. discriminate Hclient. Defined.

Lemma slots_in_range_kept_witness :
  Inv.slots_in_range (fst (fst (Path.add_responder (Path.__init__, newcomer)))).
Proof.
  destruct (slots_in_range_kept Path.__init__ newcomer new_path_in_range)
    as (Hadded & _).
  exact Hadded.
Defined.

Lemma add_responder_full_iff_witness :
  snd (Path.add_responder (Path.__init__, newcomer)) = Raise SlotsFullError
  <-> Inv.slots_full Path.__init__.
Proof.
  exact (add_responder_full_iff Path.__init__ newcomer new_path_in_range).
Defined.

Lemma add_then_remove_responder_witness :
  fst (fst (Path.remove_client (fst (Path.add_responder (fst two_added, newcomer)))))
    = fst two_added.
Proof.
  destruct (add_then_remove_responder (fst two_added) newcomer eq_refl
              ltac:(vm_compute; lia) ltac:(vm_compute; reflexivity))
    as (_ & Hback).
  exact Hback.
Defined.

Lemma next_csn_in_is_the_successor_witness :
  snd (PathClient.validate_csn_in 42
         (fst (PathClient.increment_csn_in
                 (fst (PathClient.validate_csn_in 41 expecting_41))))) = Return tt
  /\ snd (PathClient.validate_csn_in 44
            (fst (PathClient.increment_csn_in
                    (fst (PathClient.validate_csn_in 41 expecting_41)))))
     = Raise MessageError.
Proof.
  split.
  - destruct (next_csn_in_is_the_successor expecting_41 41 42
                ltac:(lia) eq_refl) as (_ & _ & Hnext).
    exact (f_equal snd Hnext).
  - destruct (next_csn_in_is_the_successor expecting_41 41 44
                ltac:(lia) eq_refl) as (_ & _ & Hnext).
    exact (f_equal snd Hnext).
Defined.

Lemma csn_in_overflow_is_final_witness :
  snd (PathClient.validate_csn_in 0
         (fst (PathClient.increment_csn_in
                 (fst (PathClient.validate_csn_in 0xFFFFFFFFFFFF
                         expecting_the_last))))) = Raise MessageFlowError.
Proof.
  destruct (csn_in_overflow_is_final expecting_the_last 0 eq_refl)
    as (_ & Hrefused & _).
  exact (f_equal snd Hrefused).
Defined.

Lemma accepted_csns_are_consecutive_witness :
  Z.land 7 0xffff00000000 = 0 /\ [7; 8; 9] = seqZ 7 (Z.of_nat 3).
Proof.
  exact (accepted_csns_are_consecutive (PathClient.__init__ 5) 7 [8; 9]
           eq_refl eq_refl).
Defined.

Lemma csn_out_starts_below_2_32_witness :
  exists n : Z,
    0 <= n < 2 ^ 32
    /\ PathClient.csn_out zeros (PathClient.__init__ 5) =
         (PathClient.set__csn_out (Some (SequenceNumber n)) (PathClient.__init__ 5),
          Return (SequenceNumber n))
    /\ PathClient.csn_out zeros
         (fst (PathClient.csn_out zeros (PathClient.__init__ 5))) =
         (fst (PathClient.csn_out zeros (PathClient.__init__ 5)),
          Return (SequenceNumber n)).
Proof.
  exact (csn_out_starts_below_2_32 zeros (PathClient.__init__ 5) eq_refl eq_refl).
Defined.

Lemma task_queue_is_fifo_witness :
  snd (QueueRuns.dequeue_all 3
         (fst (QueueRuns.enqueue_all [a_relay; a_message] busy))) =
    Return [a_message; a_relay; a_message].
Proof.
  destruct (task_queue_is_fifo busy [a_relay; a_message] eq_refl)
    as (_ & Hfifo & _).
  exact Hfifo.
Defined.

Lemma task_done_counts_the_enqueued_witness :
  snd (PathClient.task_done
         (fst (QueueRuns.task_done_times 2
                 (fst (QueueRuns.enqueue_all [a_relay; a_message]
                         (PathClient.__init__ 6)))))) = Raise InternalError.
Proof.
  destruct (task_done_counts_the_enqueued (PathClient.__init__ 6)
              [a_relay; a_message] eq_refl eq_refl) as (_ & _ & Hover).
  exact (f_equal snd Hover).
Defined.

Lemma drop_queues_the_close_last_witness :
  q_items
    (PathClient._task_queue
       (fst (QueueRuns.run_scheduled
               (EnqueueTask (PathClient.close DroppedByInitiator) true)
               (fst (PathClient.drop DroppedByInitiator busy))))) =
    [a_message; PathClient.close DroppedByInitiator].
Proof.
  destruct (drop_queues_the_close_last busy DroppedByInitiator a_relay eq_refl
              ltac:(discriminate)) as (_ & Hlast & _).
  exact Hlast.
Defined.

Lemma cancel_before_set_is_applied_witness :
  PathClientTasks.set a_task_loop (Some a_receive_loop) (Some a_keep_alive_loop)
    (fst (PathClientTasks.cancel_all_but_task_loop false
            PathClientTasks.__init__)) =
    ({| PathClientTasks._cancelled := true;
        PathClientTasks.task_loop := Some a_task_loop;
        PathClientTasks.receive_loop := Some (Task_cancel a_receive_loop);
        PathClientTasks.keep_alive_loop := Some (Task_cancel a_keep_alive_loop) |},
     Return tt).
Proof.
  apply (cancel_before_set_is_applied PathClientTasks.__init__ a_task_loop
           (Some a_receive_loop) (Some a_keep_alive_loop) eq_refl).
  intros other [[= <-] | [= <-]]; discriminate.
Defined.

Lemma authenticate_only_once_witness :
  PathClient.authenticate 0x03 the_initiator = (the_initiator, Raise ValueError).
Proof.
  destruct (authenticate_only_once (PathClient.__init__ 100) INITIATOR_ADDRESS
              0x03 eq_refl) as (_ & _ & _ & Hagain).
  exact Hagain.
Defined.

End more_examples.
